(** * Reconciliation core of the elasticsearch operator

  A shallow embedding of these pieces of the operator:
  - [newResourceRequirements] (internal/elasticsearch/common.go), the
    layered resolution of cpu and memory requests and limits, with the
    two containers sized by it and their table of defaults;
  - the [secret] package: [Get], [GetDataSHA256], [CreateOrUpdate],
    [Delete] and the provided equality and mutation functions;
  - [newNetworkPolicy], [EnforceNetworkPolicy] and [RelaxNetworkPolicy]
    (internal/elasticsearch/common.go);
  - the node roles, labels, label selector, anti-affinity, generated
    names and the updatable pod template of the same file.

  Go maps are finite maps ([gmap]); a nil map and an empty map are both
  [∅], which is how ranging, indexing and the semantic equality of the
  API machinery treat them.  Go pointers that may be nil are [option]s or
  locations of an explicit heap, and a nil dereference is a panic. *)

From Stdlib Require Import ZArith Lia List.
From Stdlib.Strings Require Import Byte.
From stdpp Require Import base option gmap strings list fin_maps sorting
infinite.

Open Scope string_scope.

(** ** Quantities and resource lists (k8s.io/apimachinery, k8s.io/api) *)

Module Resource.

(** [resource.Format]: a string type whose zero value is the empty
    string. *)
Inductive Format : Type :=
| FormatUnset
| DecimalExponent
| BinarySI
| DecimalSI.

(** [resource.Quantity]: an amount [unscaled * 10 ^ scale] and the format
    it is printed in. *)
Record Quantity : Type := mkQuantity {
  unscaled : Z;
  scale : Z;
  format : Format
}.

Global Instance Format_eq_dec : EqDecision Format.
Proof. solve_decision. Defined.

Global Instance Quantity_eq_dec : EqDecision Quantity.
Proof. solve_decision. Defined.

(** The zero value [resource.Quantity{}]: what indexing a map at a
    missing key yields. *)
Definition zero_value : Quantity := mkQuantity 0%Z 0%Z FormatUnset.

(** [resource.Quantity{Format: f}]. *)
Definition zero_with (f : Format) : Quantity := mkQuantity 0%Z 0%Z f.

(** [IsZero], a method of [*Quantity]. *)
Definition IsZero (q : Quantity) : bool := (unscaled q =? 0)%Z.

(** [v1.ResourceName] is a string; [v1.ResourceList] maps names to
    quantities. *)
Definition ResourceCPU : string := "cpu".
Definition ResourceMemory : string := "memory".

Abbreviation ResourceList := (gmap string Quantity).

(** [Name], a method of [*ResourceList]: the entry when present,
    otherwise a zero quantity in the default format. *)
Definition Name (rl : ResourceList) (name : string) (defaultFormat : Format)
  : Quantity :=
  match rl !! name with
  | Some val => val
  | None => zero_with defaultFormat
  end.

Definition Memory (rl : ResourceList) : Quantity :=
  Name rl ResourceMemory BinarySI.

Definition Cpu (rl : ResourceList) : Quantity :=
  Name rl ResourceCPU DecimalSI.

(** Map indexing [rl[name]]: the zero value when the key is missing. *)
Definition index (rl : ResourceList) (name : string) : Quantity :=
  default zero_value (rl !! name).

(** [v1.ResourceRequirements] (the fields the resolver reads and
    writes). *)
Record ResourceRequirements : Type := mkRequirements {
  Limits : ResourceList;
  Requests : ResourceList
}.

End Resource.

(** ** The resource resolver *)

Module Resolver.
Import Resource.

(** A [*resource.Quantity] local: [None] is the nil pointer. *)
Abbreviation ptr := (option Quantity).

(** The memory block of [newResourceRequirements]: the pair
    [(requestMem, limitMem)] after it. *)
Definition resolveMem (nodeResRequirements commonResRequirements
                       defaultRequirements : ResourceRequirements)
  : ptr * ptr :=
  let nodeLimitMem := Memory (Limits nodeResRequirements) in
  let nodeRequestMem := Memory (Requests nodeResRequirements) in
  let commonLimitMem := Memory (Limits commonResRequirements) in
  let commonRequestMem := Memory (Requests commonResRequirements) in
  if IsZero commonRequestMem && IsZero commonLimitMem then
    if IsZero nodeRequestMem && IsZero nodeLimitMem then
      let lMem := index (Limits defaultRequirements) ResourceMemory in
      let rMem := index (Requests defaultRequirements) ResourceMemory in
      (Some rMem, Some lMem)
    else if IsZero nodeRequestMem then
      (Some nodeLimitMem, Some nodeLimitMem)
    else if IsZero nodeLimitMem then
      (Some nodeRequestMem, Some nodeRequestMem)
    else
      (Some nodeRequestMem, Some nodeLimitMem)
  else
    let requestMem :=
      if IsZero nodeRequestMem then
        if IsZero commonRequestMem then Some commonLimitMem
        else Some commonRequestMem
      else Some nodeRequestMem in
    let limitMem :=
      if IsZero nodeLimitMem then
        if IsZero commonLimitMem then Some commonRequestMem
        else Some commonLimitMem
      else Some nodeLimitMem in
    (requestMem, limitMem).

(** The CPU block: the pair [(requestCPU, limitCPU)] after it.  Unlike
    the memory block it leaves [limitCPU] nil in three places. *)
Definition resolveCPU (nodeResRequirements commonResRequirements
                       defaultRequirements : ResourceRequirements)
  : ptr * ptr :=
  let nodeLimitCPU := Cpu (Limits nodeResRequirements) in
  let nodeRequestCPU := Cpu (Requests nodeResRequirements) in
  let commonLimitCPU := Cpu (Limits commonResRequirements) in
  let commonRequestCPU := Cpu (Requests commonResRequirements) in
  if IsZero commonRequestCPU && IsZero commonLimitCPU then
    if IsZero nodeRequestCPU && IsZero nodeLimitCPU then
      let rCPU := index (Requests defaultRequirements) ResourceCPU in
      (Some rCPU, None)
    else if IsZero nodeRequestCPU then
      (Some nodeLimitCPU, Some nodeLimitCPU)
    else if IsZero nodeLimitCPU then
      (Some nodeRequestCPU, None)
    else
      (Some nodeRequestCPU, Some nodeLimitCPU)
  else
    let requestCPU :=
      if IsZero nodeRequestCPU then
        if IsZero commonRequestCPU then Some commonLimitCPU
        else Some commonRequestCPU
      else Some nodeRequestCPU in
    let limitCPU :=
      if IsZero nodeLimitCPU then
        if negb (IsZero commonLimitCPU) then Some commonLimitCPU
        else None
      else Some nodeLimitCPU in
    (requestCPU, limitCPU).

(** [newResourceRequirements].  The result is [None] when a nil pointer
    is dereferenced while the result is packaged. *)
Definition newResourceRequirements
    (nodeResRequirements commonResRequirements
     defaultRequirements : ResourceRequirements)
  : option ResourceRequirements :=
  let '(requestMem, limitMem) :=
    resolveMem nodeResRequirements commonResRequirements
               defaultRequirements in
  let '(requestCPU, limitCPU) :=
    resolveCPU nodeResRequirements commonResRequirements
               defaultRequirements in
  match limitCPU with
  | None =>
      lm ← limitMem; rc ← requestCPU; rm ← requestMem;
      Some {| Limits := {[ "memory" := lm ]};
              Requests := <[ "cpu" := rc ]> {[ "memory" := rm ]} |}
  | Some lc =>
      lm ← limitMem; rc ← requestCPU; rm ← requestMem;
      Some {| Limits := <[ "cpu" := lc ]> {[ "memory" := lm ]};
              Requests := <[ "cpu" := rc ]> {[ "memory" := rm ]} |}
  end.

(** A quantity is set when it is not zero. *)
Definition is_set (q : Quantity) : bool := negb (IsZero q).

(** The built-in defaults have this shape: a memory limit, and a cpu and
    a memory request (the table [defaultResources]); the amounts are
    constants declared elsewhere. *)
Definition defaultsOf (memLimit cpuRequest memRequest : Quantity)
  : ResourceRequirements :=
  {| Limits := {[ ResourceMemory := memLimit ]};
     Requests := <[ ResourceCPU := cpuRequest ]>
                   {[ ResourceMemory := memRequest ]} |}.

(** The limit ladder as the specification words it for memory, read for
    cpu: workload limit if set, else cluster limit if set, else cluster
    request.  It follows the specification's sentence, not the code; it
    is what the cpu block is compared against. *)
Definition spec_cpu_limit_ladder (node common : ResourceRequirements)
  : Quantity :=
  if is_set (Cpu (Limits node)) then Cpu (Limits node)
  else if is_set (Cpu (Limits common)) then Cpu (Limits common)
  else Cpu (Requests common).

(** What the cpu block resolves as limit once the cluster tier sets a cpu
    value: the workload limit if set, else the cluster limit if set, else
    nothing. *)
Definition cpu_limit_ladder (node common : ResourceRequirements)
  : option Quantity :=
  if is_set (Cpu (Limits node)) then Some (Cpu (Limits node))
  else if is_set (Cpu (Limits common)) then Some (Cpu (Limits common))
  else None.

(** Whole cores, printed in decimal SI, and whole bytes, in binary SI. *)
Definition cores (n : Z) : Quantity := mkQuantity n 0 DecimalSI.
Definition bytes (n : Z) : Quantity := mkQuantity n 0 BinarySI.

Definition noRequirements : ResourceRequirements :=
  {| Limits := ∅; Requests := ∅ |}.

(** The defaults of the elasticsearch container, with sample amounts. *)
Definition sampleDefaults : ResourceRequirements :=
  defaultsOf (bytes 4294967296) (cores 1) (bytes 1073741824).

Definition onlyCpuRequest (n : Z) : ResourceRequirements :=
  {| Limits := ∅; Requests := {[ "cpu" := cores n ]} |}.

Definition onlyMemoryLimit (n : Z) : ResourceRequirements :=
  {| Limits := {[ "memory" := bytes n ]}; Requests := ∅ |}.

(** A tier sets a resource when it sets its request or its limit. *)
Definition sets_memory (tier : ResourceRequirements) : bool :=
  is_set (Memory (Requests tier)) || is_set (Memory (Limits tier)).

Definition sets_cpu (tier : ResourceRequirements) : bool :=
  is_set (Cpu (Requests tier)) || is_set (Cpu (Limits tier)).

(** A tier with one more resource than the resolver knows. *)
Definition withStorage (n : Z) (tier : ResourceRequirements)
  : ResourceRequirements :=
  {| Limits := <[ "ephemeral-storage" := bytes n ]> (Limits tier);
     Requests := <[ "ephemeral-storage" := bytes n ]> (Requests tier) |}.

Definition memoryAndCpu (mem cpu : Z) : ResourceRequirements :=
  {| Limits := {[ "memory" := bytes mem ]};
     Requests := <[ "cpu" := cores cpu ]> {[ "memory" := bytes mem ]} |}.

End Resolver.


(** ** Errors (k8s.io/apimachinery/pkg/api/errors, github.com/ViaQ/logerr) *)

Module Errors.

(** [metav1.StatusReason], a string type; the reasons the operator tells
    apart are named, any other is carried as it is. *)
Inductive StatusReason : Type :=
| StatusReasonUnknown
| StatusReasonNotFound
| StatusReasonAlreadyExists
| StatusReasonConflict
| StatusReasonOther (reason : string).

Global Instance StatusReason_eq_dec : EqDecision StatusReason.
Proof. solve_decision. Defined.

(** A non-nil Go [error] as the operator meets it: a status error of the
    API server, any other error (transport failures and the like), or an
    error wrapped by [kverrors.Wrap] with a message and key-value
    context.  The nil error is [None] of [option error]. *)
Inductive error : Type :=
| StatusError (reason : StatusReason) (message : string)
| OtherError (message : string)
| KVError (message : string) (kvs : list (string * string)) (cause : error).

Global Instance error_eq_dec : EqDecision error.
Proof. solve_decision. Defined.

(** [kverrors.Wrap]: nil stays nil. *)
Definition Wrap (err : option error) (msg : string)
    (keysAndValues : list (string * string)) : option error :=
  match err with
  | None => None
  | Some e => Some (KVError msg keysAndValues e)
  end.

(** [kverrors.Root]: unwrap until the error has no cause. *)
Fixpoint Root (err : error) : error :=
  match err with
  | KVError _ _ cause => Root cause
  | _ => err
  end.

(** [apierrors.ReasonForError]: the reason of the first status error on
    the chain of causes, [StatusReasonUnknown] when there is none. *)
Fixpoint ReasonForError (err : error) : StatusReason :=
  match err with
  | StatusError reason _ => reason
  | OtherError _ => StatusReasonUnknown
  | KVError _ _ cause => ReasonForError cause
  end.

Definition IsNotFound (err : error) : bool :=
  bool_decide (ReasonForError err = StatusReasonNotFound).

Definition IsAlreadyExists (err : error) : bool :=
  bool_decide (ReasonForError err = StatusReasonAlreadyExists).

Definition IsConflict (err : error) : bool :=
  bool_decide (ReasonForError err = StatusReasonConflict).

End Errors.

(** ** Objects and the client (k8s.io/api, controller-runtime) *)

Module Client.
Import Errors.

(** [client.ObjectKey]. *)
Record ObjectKey : Type := mkObjectKey {
  key_Name : string;
  key_Namespace : string
}.

Global Instance ObjectKey_eq_dec : EqDecision ObjectKey.
Proof. solve_decision. Defined.

Global Instance ObjectKey_countable : Countable ObjectKey.
Proof.
  apply (inj_countable' (λ k, (key_Name k, key_Namespace k))
           (λ p, mkObjectKey p.1 p.2)).
  by intros [].
Defined.

(** [corev1.Secret]: type and object metadata, and the payload. *)
Record Secret : Type := mkSecret {
  Kind : string;
  APIVersion : string;
  Name : string;
  Namespace : string;
  ResourceVersion : string;
  Labels : gmap string string;
  Annotations : gmap string string;
  Immutable : option bool;
  Data : gmap string (list byte);
  StringData : gmap string string;
  Type_ : string
}.

Global Instance byte_eq_dec : EqDecision byte := Byte.byte_eq_dec.

Global Instance Secret_eq_dec : EqDecision Secret.
Proof. solve_decision. Defined.

(** The zero value [corev1.Secret{}]. *)
Definition emptySecret : Secret :=
  mkSecret "" "" "" "" "" ∅ ∅ None ∅ ∅ "".

(** The assignments [s.Data = d] and [s.Annotations = a]. *)
Definition set_Data (d : gmap string (list byte)) (s : Secret) : Secret :=
  mkSecret (Kind s) (APIVersion s) (Name s) (Namespace s)
    (ResourceVersion s) (Labels s) (Annotations s) (Immutable s)
    d (StringData s) (Type_ s).

Definition set_Annotations (a : gmap string string) (s : Secret) : Secret :=
  mkSecret (Kind s) (APIVersion s) (Name s) (Namespace s)
    (ResourceVersion s) (Labels s) a (Immutable s)
    (Data s) (StringData s) (Type_ s).

(** [networking.NetworkPolicy].  The body of the policy built by
    [newNetworkPolicy] (a pod selector and three ingress rules) is never
    inspected by the operations below, so it is kept as one constant. *)
Inductive NetworkPolicySpec : Type := RestrictedToOperatorAndCluster.

(** [metav1.OwnerReference]. *)
Record OwnerReference : Type := mkOwnerReference {
  or_APIVersion : string;
  or_Kind : string;
  or_Name : string;
  or_UID : string;
  or_Controller : option bool
}.

Record NetworkPolicy : Type := mkNetworkPolicy {
  np_Name : string;
  np_Namespace : string;
  np_OwnerReferences : list OwnerReference;
  np_Spec : NetworkPolicySpec
}.

(** A [client.Object] of one of the two kinds the operator sends. *)
Inductive Object : Type :=
| ObjSecret (s : Secret)
| ObjNetworkPolicy (p : NetworkPolicy).

(** [client.Client] over a store whose state is a [W]: each call
    answers and moves the store to a new state, which also accounts for
    whatever other writers did in between.  [clientGet] is a [Get] into
    a [*corev1.Secret]: the object read, or an error. *)
Record Client (W : Type) : Type := mkClient {
  clientGet : ObjectKey → W → (Secret + error) * W;
  clientCreate : Object → W → option error * W;
  clientUpdate : Object → W → option error * W;
  clientDelete : Object → W → option error * W
}.
Global Arguments clientGet {W}.
Global Arguments clientCreate {W}.
Global Arguments clientUpdate {W}.
Global Arguments clientDelete {W}.

(** One call to the store and its answer. *)
Inductive Event : Type :=
| EvGet (key : ObjectKey) (res : Secret + error)
| EvCreate (o : Object) (res : option error)
| EvUpdate (o : Object) (res : option error)
| EvDelete (o : Object) (res : option error).

Definition is_write (ev : Event) : bool :=
  match ev with
  | EvGet _ _ => false
  | _ => true
  end.

Definition is_update (ev : Event) : bool :=
  match ev with
  | EvUpdate _ _ => true
  | _ => false
  end.

Definition is_get (ev : Event) : bool :=
  match ev with
  | EvGet _ _ => true
  | _ => false
  end.

End Client.

(** ** Running operator code: a heap of secrets, the store, the calls made *)

Module Run.
Import Errors Client.

(** Addresses of [*corev1.Secret] values. *)
Abbreviation loc := positive.
Abbreviation Heap := (gmap positive Secret).

Record State (W : Type) : Type := mkState {
heap : Heap;
world : W;
trace : list Event
}.
Global Arguments mkState {W}.
Global Arguments heap {W}.
Global Arguments world {W}.
Global Arguments trace {W}.

(** A computation either panics ([None]) or returns a value and the next
  state. *)
Definition M (W A : Type) : Type := State W → option (A * State W).

Global Instance M_ret {W} : MRet (M W) := λ A x st, Some (x, st).
Global Instance M_bind {W} : MBind (M W) := λ A B f m st,
match m st with
| Some (a, st') => f a st'
| None => None
end.

Section Primitives.
Context {W : Type}.

(** [*p]: panics on a nil or dangling pointer. *)
Definition load (p : loc) : M W Secret := λ st,
  match heap st !! p with
  | Some s => Some (s, st)
  | None => None
  end.

(** [*p = v] for an allocated [p]. *)
Definition store (p : loc) (v : Secret) : M W unit := λ st,
  match heap st !! p with
  | Some _ => Some (tt, mkState (<[p := v]> (heap st)) (world st) (trace st))
  | None => None
  end.

(** [&v]: a new address. *)
Definition alloc (v : Secret) : M W loc := λ st,
  let p := fresh (dom (heap st)) in
  Some (p, mkState (<[p := v]> (heap st)) (world st) (trace st)).

(** A heap update that may panic, run on the heap of the state. *)
Definition onHeap (f : Heap → option Heap) : M W unit := λ st,
  match f (heap st) with
  | Some h => Some (tt, mkState h (world st) (trace st))
  | None => None
  end.

Definition record (ev : Event) (w : W) (st : State W) : State W :=
  mkState (heap st) w (trace st ++ [ev]).

(** [c.Get(ctx, key, into)]: on success the object read replaces
    [*into]. *)
Definition callGet (c : Client W) (key : ObjectKey) (into : loc)
  : M W (option error) := λ st,
  match heap st !! into with
  | None => None
  | Some _ =>
      let '(res, w) := clientGet c key (world st) in
      match res with
      | inl s =>
          Some (None, mkState (<[into := s]> (heap st)) w
                        (trace st ++ [EvGet key res]))
      | inr e => Some (Some e, record (EvGet key res) w st)
      end
  end.

(** [c.Create(ctx, p)], [c.Update(ctx, p)] and [c.Delete(ctx, p, opts)]
    on a secret.  What the server writes back into [*p] after a write
    is not read again by any caller below and is left out. *)
Definition callCreate (c : Client W) (p : loc) : M W (option error) :=
  λ st,
  match heap st !! p with
  | None => None
  | Some v =>
      let '(res, w) := clientCreate c (ObjSecret v) (world st) in
      Some (res, record (EvCreate (ObjSecret v) res) w st)
  end.

Definition callUpdate (c : Client W) (p : loc) : M W (option error) :=
  λ st,
  match heap st !! p with
  | None => None
  | Some v =>
      let '(res, w) := clientUpdate c (ObjSecret v) (world st) in
      Some (res, record (EvUpdate (ObjSecret v) res) w st)
  end.


(** The same two writes on a network policy held in a local. *)
Definition callCreatePolicy (c : Client W) (p : NetworkPolicy)
  : M W (option error) := λ st,
  let '(res, w) := clientCreate c (ObjNetworkPolicy p) (world st) in
  Some (res, record (EvCreate (ObjNetworkPolicy p) res) w st).

Definition callDeletePolicy (c : Client W) (p : NetworkPolicy)
  : M W (option error) := λ st,
  let '(res, w) := clientDelete c (ObjNetworkPolicy p) (world st) in
  Some (res, record (EvDelete (ObjNetworkPolicy p) res) w st).

End Primitives.

End Run.


(** ** SHA-256 (crypto/sha256), after FIPS 180-4 *)

Module SHA256.
Local Open Scope Z_scope.

(** 32-bit words are integers in [0, 2^32); every operation that can
    leave the range is reduced back into it. *)
Definition mask32 : Z := 0xFFFFFFFF.
Definition w32 (x : Z) : Z := Z.land x mask32.
Definition add32 (x y : Z) : Z := w32 (x + y).
Definition not32 (x : Z) : Z := Z.lxor x mask32.
Definition shr (n x : Z) : Z := Z.shiftr x n.
Definition rotr (n x : Z) : Z :=
  Z.lor (Z.shiftr x n) (w32 (Z.shiftl x (32 - n))).

Definition Ch (x y z : Z) : Z := Z.lxor (Z.land x y) (Z.land (not32 x) z).
Definition Maj (x y z : Z) : Z :=
  Z.lxor (Z.lxor (Z.land x y) (Z.land x z)) (Z.land y z).
Definition bigSigma0 (x : Z) : Z :=
  Z.lxor (Z.lxor (rotr 2 x) (rotr 13 x)) (rotr 22 x).
Definition bigSigma1 (x : Z) : Z :=
  Z.lxor (Z.lxor (rotr 6 x) (rotr 11 x)) (rotr 25 x).
Definition smallSigma0 (x : Z) : Z :=
  Z.lxor (Z.lxor (rotr 7 x) (rotr 18 x)) (shr 3 x).
Definition smallSigma1 (x : Z) : Z :=
  Z.lxor (Z.lxor (rotr 17 x) (rotr 19 x)) (shr 10 x).

(** The round constants and the initial registers are the first 32 bits
    of the fractional parts of the cube roots of the first 64 primes and
    of the square roots of the first 8. *)
Definition primes : list Z :=
  [ 2; 3; 5; 7; 11; 13; 17; 19; 23; 29; 31; 37; 41; 43; 47; 53;
    59; 61; 67; 71; 73; 79; 83; 89; 97; 101; 103; 107; 109; 113; 127; 131;
    137; 139; 149; 151; 157; 163; 167; 173; 179; 181; 191; 193; 197; 199;
    211; 223; 227; 229; 233; 239; 241; 251; 257; 263; 269; 271; 277; 281;
    283; 293; 307; 311 ].

(** The integer cube root of [x], found bit by bit below [2 ^ bits]. *)
Fixpoint cube_root (bits : nat) (x r : Z) : Z :=
  match bits with
  | O => r
  | S bits' =>
      let r' := r + 2 ^ Z.of_nat bits' in
      if r' * r' * r' <=? x then cube_root bits' x r' else cube_root bits' x r
  end.

Definition K : list Z :=
  Eval vm_compute in map (λ p, w32 (cube_root 36 (p * 2 ^ 96) 0)) primes.

(** The eight working words. *)
Record Registers : Type := mkRegisters {
  ra : Z; rb : Z; rc : Z; rd : Z; re : Z; rf : Z; rg : Z; rh : Z
}.

Definition square_root_fraction (p : Z) : Z :=
  Eval cbv beta in w32 (Z.sqrt (p * 2 ^ 64)).

Definition init : Registers :=
  Eval vm_compute in
    mkRegisters (square_root_fraction 2) (square_root_fraction 3)
                (square_root_fraction 5) (square_root_fraction 7)
                (square_root_fraction 11) (square_root_fraction 13)
                (square_root_fraction 17) (square_root_fraction 19).

Definition byte_to_Z (b : byte) : Z := Z.of_N (Byte.to_N b).
Definition byte_of_Z (z : Z) : byte :=
  default x00 (Byte.of_N (Z.to_N (Z.land z 0xFF))).

(** Padding: the bit 1, zeros up to 56 modulo 64, the bit length on
    eight bytes, most significant first. *)
Definition be_bytes (count : nat) (x : Z) : list Z :=
  map (λ i, Z.land (Z.shiftr x (8 * Z.of_nat i)) 0xFF)
      (rev (seq 0 count)).

Definition pad (msg : list Z) : list Z :=
  let len := Z.of_nat (length msg) in
  let zeros := Z.to_nat ((55 - len) mod 64) in
  msg ++ [0x80] ++ repeat 0 zeros ++ be_bytes 8 (8 * len).

(** Four bytes, most significant first, to a word. *)
Fixpoint words (fuel : nat) (bs : list Z) : list Z :=
  match fuel, bs with
  | S fuel', b0 :: b1 :: b2 :: b3 :: rest =>
      (Z.shiftl b0 24 + Z.shiftl b1 16 + Z.shiftl b2 8 + b3)
        :: words fuel' rest
  | _, _ => []
  end.

(** The message schedule, held most recent word first. *)
Fixpoint extend (count : nat) (ws : list Z) : list Z :=
  match count with
  | O => ws
  | S count' =>
      let w := add32 (add32 (smallSigma1 (nth 1 ws 0)) (nth 6 ws 0))
                     (add32 (smallSigma0 (nth 14 ws 0)) (nth 15 ws 0)) in
      extend count' (w :: ws)
  end.

Definition schedule (block : list Z) : list Z :=
  rev (extend 48 (rev (words 16 block))).

Definition round (r : Registers) (kw : Z * Z) : Registers :=
  let t1 := add32 (add32 (add32 (rh r) (bigSigma1 (re r)))
                         (add32 (Ch (re r) (rf r) (rg r)) kw.1)) kw.2 in
  let t2 := add32 (bigSigma0 (ra r)) (Maj (ra r) (rb r) (rc r)) in
  mkRegisters (add32 t1 t2) (ra r) (rb r) (rc r)
              (add32 (rd r) t1) (re r) (rf r) (rg r).

Definition compress (h : Registers) (block : list Z) : Registers :=
  let r := fold_left round (combine K (schedule block)) h in
  mkRegisters (add32 (ra h) (ra r)) (add32 (rb h) (rb r))
              (add32 (rc h) (rc r)) (add32 (rd h) (rd r))
              (add32 (re h) (re r)) (add32 (rf h) (rf r))
              (add32 (rg h) (rg r)) (add32 (rh h) (rh r)).

Fixpoint blocks (fuel : nat) (bs : list Z) : list (list Z) :=
  match fuel, bs with
  | S fuel', _ :: _ => firstn 64 bs :: blocks fuel' (skipn 64 bs)
  | _, _ => []
  end.

Definition word_bytes (w : Z) : list byte :=
  [ byte_of_Z (Z.shiftr w 24); byte_of_Z (Z.shiftr w 16);
    byte_of_Z (Z.shiftr w 8); byte_of_Z w ].

(** [sha256.Sum256]: the digest, an array of [Size] bytes. *)
Definition Size : nat := 32.

Definition Sum256 (data : list byte) : list byte :=
  let padded := pad (map byte_to_Z data) in
  let h := fold_left compress (blocks (length padded) padded) init in
  word_bytes (ra h) ++ word_bytes (rb h) ++ word_bytes (rc h) ++
  word_bytes (rd h) ++ word_bytes (re h) ++ word_bytes (rf h) ++
  word_bytes (rg h) ++ word_bytes (rh h).

(** The zero value of [[Size]byte]. *)
Definition zeroDigest : list byte := repeat x00 Size.

End SHA256.


(** ** Ranging over a Go map *)

Module GoMap.

(** The order in which one [range] loop visits a map is chosen by the
    runtime: any order that visits each entry once. *)
Record Order : Type := mkOrder {
  visit : ∀ V : Type, gmap string V → list (string * V)
}.

Definition valid (o : Order) : Prop :=
  ∀ (V : Type) (m : gmap string V), visit o V m ≡ₚ map_to_list m.

(** Two orders to run with: the map's own listing, and its reverse. *)
Definition listed : Order := mkOrder (λ V m, map_to_list m).
Definition reversed : Order := mkOrder (λ V m, reverse (map_to_list m)).

(** [sort.Strings]: ascending, by bytes. *)
Definition sortStrings (l : list string) : list string :=
  merge_sort String.le l.

End GoMap.

(** ** Package secret *)

Module secret.
Import Errors Client Run GoMap.

(** [EqualityFunc]: compares the secrets behind two pointers. *)
Definition EqualityFunc : Type := Secret → Secret → bool.

(** [MutateFunc]: given the addresses [current] and [desired], updates
    the heap; [None] is a panic. *)
Definition MutateFunc : Type := loc → loc → Heap → option Heap.

(** Modelled from the spec: the constructor [New] of this package is
    declared in a file that is not at hand; it is taken to build a
    secret of the given name and namespace holding the given data, as its
    two callers here rely on. *)
Definition newSecret (secretName namespace : string)
    (data : gmap string (list byte)) : Secret :=
  mkSecret "Secret" "v1" secretName namespace "" ∅ ∅ None data ∅ "Opaque".

Definition keysAndValues (s : Secret) : list (string * string) :=
  [("name", Name s); ("namespace", Namespace s)].

Section WithStore.
Context {W : Type}.

Definition New (secretName namespace : string)
    (data : gmap string (list byte)) : M W loc :=
  alloc (newSecret secretName namespace data).

(** [Get]: the secret for the key, or the error wrapped. *)
Definition Get (c : Client W) (key : ObjectKey)
  : M W (loc * option error) :=
  s ← New (key_Name key) (key_Namespace key) ∅;
  err ← callGet c key s;
  match err with
  | Some e =>
      sv ← load s;
      mret (s, Wrap (Some e) "failed to get secret" (keysAndValues sv))
  | None => mret (s, None)
  end.

(** The three loops of [GetDataSHA256] over the data of the secret read:
    hash each value, collect and sort the keys, append the digests in
    that order.  [fmt.Sprintf] with the verb s writes a byte array as its
    bytes. *)
Definition hashEach (o : Order) (data : gmap string (list byte))
  : gmap string (list byte) :=
  fold_left (λ dataHashes kv, <[kv.1 := SHA256.Sum256 kv.2]> dataHashes)
            (visit o _ data) ∅.

Definition collectKeys (o : Order) (dataHashes : gmap string (list byte))
  : list string :=
  fold_left (λ sortedKeys kv, (sortedKeys ++ [kv.1])%list)
            (visit o _ dataHashes) [].

Definition digestAt (dataHashes : gmap string (list byte)) (key : string)
  : list byte :=
  default SHA256.zeroDigest (dataHashes !! key).

Definition appendDigests (dataHashes : gmap string (list byte))
    (sortedKeys : list string) (hash : string) : string :=
  fold_left (λ hash key,
               hash +:+ String.string_of_list_byte (digestAt dataHashes key))
            sortedKeys hash.

Definition dataSHA256 (o1 o2 : Order) (data : gmap string (list byte))
  : string :=
  let dataHashes := hashEach o1 data in
  let sortedKeys := sortStrings (collectKeys o2 dataHashes) in
  appendDigests dataHashes sortedKeys "".

(** [GetDataSHA256]; [o1] and [o2] are the orders of its two loops over
    maps. *)
Definition GetDataSHA256 (o1 o2 : Order) (c : Client W) (key : ObjectKey)
  : M W string :=
  '(sec, err) ← Get c key;
  match err with
  | Some _ => mret ""
  | None => secv ← load sec; mret (dataSHA256 o1 o2 (Data secv))
  end.

(** [retry.DefaultRetry]: five steps.  Its duration, factor and jitter
    only set how long the loop sleeps between two steps. *)
Record Backoff : Type := mkBackoff { Steps : nat }.
Definition DefaultRetry : Backoff := mkBackoff 5.

(** How [wait.ExponentialBackoff] ends: the condition held, the condition
    failed with an error, or the steps ran out ([wait.ErrWaitTimeout], a
    value of the wait package that no call to the store returns). *)
Inductive WaitResult : Type :=
| WaitDone
| WaitFailed (err : error)
| ErrWaitTimeout.

(** [wait.ExponentialBackoff] run on the condition of [retry.OnError];
    [lastErr] is the variable the condition captures. *)
Fixpoint backoffLoop (steps : nat) (retriable : error → bool)
    (fn : M W (option error)) (lastErr : option error)
  : M W (WaitResult * option error) :=
  match steps with
  | O => mret (ErrWaitTimeout, lastErr)
  | S steps' =>
      err ← fn;
      match err with
      | None => mret (WaitDone, lastErr)
      | Some e =>
          if retriable e
          then backoffLoop steps' retriable fn (Some e)
          else mret (WaitFailed e, lastErr)
      end
  end.

(** [retry.OnError] and [retry.RetryOnConflict]. *)
Definition OnError (backoff : Backoff) (retriable : error → bool)
    (fn : M W (option error)) : M W (option error) :=
  '(res, lastErr) ← backoffLoop (Steps backoff) retriable fn None;
  match res with
  | WaitDone => mret None
  | WaitFailed err => mret (Some err)
  | ErrWaitTimeout => mret lastErr
  end.

Definition RetryOnConflict (backoff : Backoff) (fn : M W (option error))
  : M W (option error) :=
  OnError backoff IsConflict fn.

(** The closure [CreateOrUpdate] retries: get, mutate, update. *)
Definition updateAttempt (c : Client W) (key : ObjectKey)
    (current s : loc) (mutate : MutateFunc) : M W (option error) :=
  err ← callGet c key current;
  match err with
  | Some e =>
      sv ← load s;
      mret (Wrap (Some e) "failed to get secret" (keysAndValues sv))
  | None =>
      _ ← onHeap (mutate current s);
      err ← callUpdate c current;
      match err with
      | Some e => mret (Some e)
      | None => mret None
      end
  end.

(** [CreateOrUpdate]. *)
Definition CreateOrUpdate (c : Client W) (s : loc) (equal : EqualityFunc)
    (mutate : MutateFunc) : M W (option error) :=
  current ← alloc emptySecret;
  sv ← load s;
  let key := mkObjectKey (Name sv) (Namespace sv) in
  err ← callGet c key current;
  match err with
  | Some e =>
      if IsNotFound e then
        err ← callCreate c s;
        match err with
        | None => mret None
        | Some e' =>
            sv ← load s;
            mret (Wrap (Some e') "failed to create secret"
                       (keysAndValues sv))
        end
      else
        sv ← load s;
        mret (Wrap (Some e) "failed to get secret" (keysAndValues sv))
  | None =>
      cv ← load current;
      sv ← load s;
      if negb (equal cv sv) then
        err ← RetryOnConflict DefaultRetry
                (updateAttempt c key current s mutate);
        match err with
        | Some e =>
            sv ← load s;
            mret (Wrap (Some e) "failed to update secret"
                       (keysAndValues sv))
        | None => mret None
        end
      else mret None
  end.


End WithStore.

(** [AnnotationsAndDataEqual] and [DataEqual]; the semantic deep
    equality of two maps is their equality as finite maps. *)
Definition AnnotationsAndDataEqual : EqualityFunc := λ current desired,
  bool_decide (Annotations current = Annotations desired) &&
  bool_decide (Data current = Data desired).

Definition DataEqual : EqualityFunc := λ current desired,
  bool_decide (Data current = Data desired).

(** [MutateAnnotationsAndDataOnly] and [MutateDataOnly]: each assignment
    reads [*desired] and writes [*current]. *)
Definition assignAnnotations (current desired : loc) (h : Heap)
  : option Heap :=
  d ← h !! desired; c ← h !! current;
  Some (<[current := set_Annotations (Annotations d) c]> h).

Definition assignData (current desired : loc) (h : Heap) : option Heap :=
  d ← h !! desired; c ← h !! current;
  Some (<[current := set_Data (Data d) c]> h).

Definition MutateAnnotationsAndDataOnly : MutateFunc := λ current desired h,
  h1 ← assignAnnotations current desired h;
  assignData current desired h1.

Definition MutateDataOnly : MutateFunc := λ current desired h,
  assignData current desired h.

(** A mutate function that may be handed to [CreateOrUpdate]: on two
    allocated addresses it does not panic and leaves both allocated. *)
Definition mutate_safe (mutate : MutateFunc) : Prop :=
  ∀ current desired h,
    is_Some (h !! current) → is_Some (h !! desired) →
    ∃ h', mutate current desired h = Some h' ∧
          is_Some (h' !! current) ∧ is_Some (h' !! desired).

(** Two secrets that differ at most in their data, and at most in their
    annotations and data. *)
Definition same_but_data (c c' : Secret) : Prop :=
  Kind c' = Kind c ∧ APIVersion c' = APIVersion c ∧ Name c' = Name c ∧
  Namespace c' = Namespace c ∧ ResourceVersion c' = ResourceVersion c ∧
  Labels c' = Labels c ∧ Annotations c' = Annotations c ∧
  Immutable c' = Immutable c ∧ StringData c' = StringData c ∧
  Type_ c' = Type_ c.

Definition same_but_annotations_and_data (c c' : Secret) : Prop :=
  Kind c' = Kind c ∧ APIVersion c' = APIVersion c ∧ Name c' = Name c ∧
  Namespace c' = Namespace c ∧ ResourceVersion c' = ResourceVersion c ∧
  Labels c' = Labels c ∧ Immutable c' = Immutable c ∧
  StringData c' = StringData c ∧ Type_ c' = Type_ c.



(** What [OnError] returns for an ending of the loop. *)
Definition onErrorResult (res : WaitResult * option error) : option error :=
  match res.1 with
  | WaitDone => None
  | WaitFailed err => Some err
  | ErrWaitTimeout => res.2
  end.



(** What the two provided mutate functions make of the secret behind
    [current], given the one behind [desired]. *)
Definition withDataOf (current desired : Secret) : Secret :=
  set_Data (Data desired) current.

Definition withAnnotationsAndDataOf (current desired : Secret) : Secret :=
  set_Data (Data desired) (set_Annotations (Annotations desired) current).

(** A mutate function that acts through [f]: on two distinct allocated
    addresses it replaces the secret behind [current] by [f] of the two
    secrets and touches nothing else. *)
Definition mutates_as (mutate : MutateFunc) (f : Secret → Secret → Secret)
  : Prop :=
  ∀ current desired h c d,
    h !! current = Some c → h !! desired = Some d → current ≠ desired →
    mutate current desired h = Some (<[current := f c d]> h).

(** One run of the closure of [CreateOrUpdate], as the answer of its get
    and the answer of its update, and the calls that run makes when the
    mutate function acts through [f]. *)
Definition Attempt : Type := (Secret + error) * option error.

Definition attemptCalls (key : ObjectKey) (f : Secret → Secret → Secret)
    (desired : Secret) (a : Attempt) : list Event :=
  match a.1 with
  | inl cur => [EvGet key (inl cur); EvUpdate (ObjSecret (f cur desired)) a.2]
  | inr e => [EvGet key (inr e)]
  end.

Definition attemptResult (desired : Secret) (a : Attempt) : option error :=
  match a.1 with
  | inl _ => a.2
  | inr e => Some (KVError "failed to get secret" (keysAndValues desired) e)
  end.

End secret.


(** ** Node roles (apis/logging/v1) and label selectors (k8s.io/apimachinery) *)

Module api.

(** [api.ElasticsearchNodeRole], a string type: the three roles the
    operator knows are named, any other string is carried as it is. *)
Inductive ElasticsearchNodeRole : Type :=
| ElasticsearchRoleClient
| ElasticsearchRoleData
| ElasticsearchRoleMaster
| ElasticsearchRoleOther (name : string).

Global Instance ElasticsearchNodeRole_eq_dec : EqDecision ElasticsearchNodeRole.
Proof. solve_decision. Defined.

Global Instance ElasticsearchNodeRole_countable :
  Countable ElasticsearchNodeRole.
Proof.
  apply (inj_countable'
           (λ role, match role with
                    | ElasticsearchRoleClient => inl 0%nat
                    | ElasticsearchRoleData => inl 1%nat
                    | ElasticsearchRoleMaster => inl 2%nat
                    | ElasticsearchRoleOther name => inr name
                    end)
           (λ code, match code with
                    | inl 0%nat => ElasticsearchRoleClient
                    | inl 1%nat => ElasticsearchRoleData
                    | inl _ => ElasticsearchRoleMaster
                    | inr name => ElasticsearchRoleOther name
                    end)).
  by intros [].
Defined.

(** [api.ElasticsearchNode]: the field the role functions read. *)
Record ElasticsearchNode : Type := mkElasticsearchNode {
  Roles : list ElasticsearchNodeRole
}.

End api.

Module Meta.

(** [metav1.LabelSelectorOperator]. *)
Inductive LabelSelectorOperator : Type :=
| LabelSelectorOpIn
| LabelSelectorOpNotIn
| LabelSelectorOpExists
| LabelSelectorOpDoesNotExist.

(** [metav1.LabelSelectorRequirement] and [metav1.LabelSelector]. *)
Record LabelSelectorRequirement : Type := mkLabelSelectorRequirement {
  Key : string;
  Operator : LabelSelectorOperator;
  Values : list string
}.

Record LabelSelector : Type := mkLabelSelector {
  MatchLabels : gmap string string;
  MatchExpressions : list LabelSelectorRequirement
}.

(** When a selector selects an object with the given labels: every pair
    of [MatchLabels] is a label of the object, and every requirement
    holds of its labels. *)
Definition requirementHolds (labels : gmap string string)
    (req : LabelSelectorRequirement) : bool :=
  match Operator req, labels !! Key req with
  | LabelSelectorOpIn, Some v => bool_decide (v ∈ Values req)
  | LabelSelectorOpIn, None => false
  | LabelSelectorOpNotIn, Some v => negb (bool_decide (v ∈ Values req))
  | LabelSelectorOpNotIn, None => true
  | LabelSelectorOpExists, Some _ => true
  | LabelSelectorOpExists, None => false
  | LabelSelectorOpDoesNotExist, Some _ => false
  | LabelSelectorOpDoesNotExist, None => true
  end.

Definition selects (sel : LabelSelector) (labels : gmap string string)
  : bool :=
  bool_decide (map_Forall (λ k v, labels !! k = Some v) (MatchLabels sel))
  && forallb (requirementHolds labels) (MatchExpressions sel).

(** [v1.PodAffinityTerm], [v1.WeightedPodAffinityTerm],
    [v1.PodAntiAffinity] and [v1.Affinity]: the fields the operator
    fills. *)
Record PodAffinityTerm : Type := mkPodAffinityTerm {
  LabelSelector_ : option LabelSelector;
  TopologyKey : string
}.

Record WeightedPodAffinityTerm : Type := mkWeightedPodAffinityTerm {
  Weight : Z;
  PodAffinityTerm_ : PodAffinityTerm
}.

Record PodAntiAffinity : Type := mkPodAntiAffinity {
  PreferredDuringSchedulingIgnoredDuringExecution
    : list WeightedPodAffinityTerm
}.

Record Affinity : Type := mkAffinity {
  PodAntiAffinity_ : option PodAntiAffinity
}.

(** The label selectors of the preferred anti-affinity terms. *)
Definition preferredSelectors (a : Affinity) : list LabelSelector :=
  match PodAntiAffinity_ a with
  | None => []
  | Some anti =>
      omap (λ term, LabelSelector_ (PodAffinityTerm_ term))
           (PreferredDuringSchedulingIgnoredDuringExecution anti)
  end.

End Meta.

(** ** Package elasticsearch (internal/elasticsearch/common.go) *)

Module elasticsearch.
Import Errors Client Run.

(** [newNetworkPolicy]. *)
Definition newNetworkPolicy (namespace : string) : NetworkPolicy :=
  mkNetworkPolicy "restricted-es-policy" namespace []
                  RestrictedToOperatorAndCluster.

Section WithStore.
Context {W : Type}.

(** [EnforceNetworkPolicy]. *)
Definition EnforceNetworkPolicy (namespace : string) (client : Client W)
    (ownerRef : list OwnerReference) : M W (option error) :=
  let policy := newNetworkPolicy namespace in
  let policy := mkNetworkPolicy (np_Name policy) (np_Namespace policy)
                                ownerRef (np_Spec policy) in
  err ← callCreatePolicy client policy;
  match err with
  | Some e =>
      if negb (IsAlreadyExists (Root e))
      then mret (Wrap (Some e) "failed to create network policy" [])
      else mret None
  | None => mret None
  end.

(** [RelaxNetworkPolicy]. *)
Definition RelaxNetworkPolicy (namespace : string) (client : Client W)
  : M W (option error) :=
  let policy := newNetworkPolicy namespace in
  err ← callDeletePolicy client policy;
  match err with
  | Some e =>
      if negb (IsNotFound (Root e))
      then mret (Wrap (Some e) "failed to delete network policy" [])
      else mret None
  | None => mret None
  end.

End WithStore.

(** *** Names, roles, labels, pod templates and the two sized containers *)

Import Resource Resolver api Meta.

(** [strconv.FormatBool]. *)
Definition FormatBool (b : bool) : string := if b then "true" else "false".

(** [serviceMonitorServiceAccountName] and its two neighbours. *)
Definition serviceMonitorServiceAccountName (dplName : string) : string :=
  dplName +:+ "-metrics".

Definition serviceMonitorServiceAccountTokenName (dplName : string)
  : string :=
  serviceMonitorServiceAccountName dplName +:+ "-token".

Definition serviceCABundleName (dplName : string) : string :=
  dplName +:+ "-ca-bundle".

(** Indexing a role map: [false] at a missing key. *)
Definition roleAt (roleMap : gmap ElasticsearchNodeRole bool)
    (role : ElasticsearchNodeRole) : bool :=
  default false (roleMap !! role).

(** [getNodeRoleMap]: one pass over the roles that raises three flags. *)
Definition getNodeRoleMap (node : ElasticsearchNode)
  : gmap ElasticsearchNodeRole bool :=
  let '(isClient, isData, isMaster) :=
    fold_left
      (λ '(isClient, isData, isMaster) role,
         let isClient :=
           if decide (role = ElasticsearchRoleClient) then true
           else isClient in
         let isData :=
           if decide (role = ElasticsearchRoleData) then true
           else isData in
         let isMaster :=
           if decide (role = ElasticsearchRoleMaster) then true
           else isMaster in
         (isClient, isData, isMaster))
      (Roles node) (false, false, false) in
  <[ ElasticsearchRoleClient := isClient ]>
    (<[ ElasticsearchRoleData := isData ]>
       {[ ElasticsearchRoleMaster := isMaster ]}).

(** [isMasterNode] and [isDataNode]: a loop that returns at the first
    hit. *)
Definition isMasterNode (node : ElasticsearchNode) : bool :=
  (fix range (roles : list ElasticsearchNodeRole) : bool :=
     match roles with
     | [] => false
     | role :: rest =>
         if decide (role = ElasticsearchRoleMaster) then true
         else range rest
     end) (Roles node).

Definition isDataNode (node : ElasticsearchNode) : bool :=
  (fix range (roles : list ElasticsearchNodeRole) : bool :=
     match roles with
     | [] => false
     | role :: rest =>
         if decide (role = ElasticsearchRoleData) then true
         else range rest
     end) (Roles node).

(** [newAffinity]. *)
Definition newAffinity (roleMap : gmap ElasticsearchNodeRole bool)
  : Affinity :=
  let labelSelectorReqs : list LabelSelectorRequirement := [] in
  let labelSelectorReqs :=
    if roleAt roleMap ElasticsearchRoleClient
    then (labelSelectorReqs ++
          [mkLabelSelectorRequirement "es-node-client" LabelSelectorOpIn
             ["true"]])%list
    else labelSelectorReqs in
  let labelSelectorReqs :=
    if roleAt roleMap ElasticsearchRoleData
    then (labelSelectorReqs ++
          [mkLabelSelectorRequirement "es-node-data" LabelSelectorOpIn
             ["true"]])%list
    else labelSelectorReqs in
  let labelSelectorReqs :=
    if roleAt roleMap ElasticsearchRoleMaster
    then (labelSelectorReqs ++
          [mkLabelSelectorRequirement "es-node-master" LabelSelectorOpIn
             ["true"]])%list
    else labelSelectorReqs in
  {| PodAntiAffinity_ := Some
       {| PreferredDuringSchedulingIgnoredDuringExecution :=
            [ {| Weight := 100;
                 PodAffinityTerm_ :=
                   {| LabelSelector_ := Some
                        {| MatchLabels := ∅;
                           MatchExpressions := labelSelectorReqs |};
                      TopologyKey := "kubernetes.io/hostname" |} |} ] |} |}.

(** [newLabels] and [newLabelSelector]. *)
Definition newLabels (clusterName nodeName : string)
    (roleMap : gmap ElasticsearchNodeRole bool) : gmap string string :=
  <[ "es-node-client" := FormatBool (roleAt roleMap ElasticsearchRoleClient) ]>
  (<[ "es-node-data" := FormatBool (roleAt roleMap ElasticsearchRoleData) ]>
  (<[ "es-node-master" :=
        FormatBool (roleAt roleMap ElasticsearchRoleMaster) ]>
  (<[ "cluster-name" := clusterName ]>
  (<[ "component" := "elasticsearch" ]>
  {[ "node-name" := nodeName ]})))).

Definition newLabelSelector (clusterName nodeName : string)
    (roleMap : gmap ElasticsearchNodeRole bool) : gmap string string :=
  <[ "es-node-client" := FormatBool (roleAt roleMap ElasticsearchRoleClient) ]>
  (<[ "es-node-data" := FormatBool (roleAt roleMap ElasticsearchRoleData) ]>
  (<[ "es-node-master" :=
        FormatBool (roleAt roleMap ElasticsearchRoleMaster) ]>
  (<[ "cluster-name" := clusterName ]>
  {[ "node-name" := nodeName ]}))).

(** The three roles the operator knows. *)
Definition knownRoles : list ElasticsearchNodeRole :=
  [ElasticsearchRoleClient; ElasticsearchRoleData; ElasticsearchRoleMaster].

Definition nodeOf (roles : list ElasticsearchNodeRole) : ElasticsearchNode :=
  mkElasticsearchNode roles.

Section PodTemplates.
(** [v1.PodTemplateSpec] with its [v1.PodSpec]: the volumes, and the
    fields [createUpdatablePodTemplateSpec] passes on as they are. *)
Context {Volume ObjectMeta SpecRest : Type}.

Record PodSpec : Type := mkPodSpec {
  Volumes : list Volume;
  specRest : SpecRest
}.

Record PodTemplateSpec : Type := mkPodTemplateSpec {
  ObjectMeta_ : ObjectMeta;
  Spec : PodSpec
}.

(** [createUpdatablePodTemplateSpec]: the struct copy shares nothing the
    assignment writes to, so [desired] itself is left as it is. *)
Definition createUpdatablePodTemplateSpec (current desired : PodTemplateSpec)
  : PodTemplateSpec :=
  let desiredCopy := desired in
  let desiredCopy :=
    mkPodTemplateSpec (ObjectMeta_ desiredCopy)
      (mkPodSpec (Volumes (Spec current)) (specRest (Spec desiredCopy))) in
  desiredCopy.

End PodTemplates.
Global Arguments PodSpec : clear implicits.
Global Arguments PodTemplateSpec : clear implicits.

Section Defaults.
(** The table [defaultResources]; its six amounts are constants of the
    package, parsed when the package is loaded. *)
Context (defaultESProxyMemoryLimit defaultESProxyCPURequest
         defaultESProxyMemoryRequest defaultESMemoryLimit
         defaultESCpuRequest defaultESMemoryRequest : Quantity).

Definition defaultResources : gmap string ResourceRequirements :=
  <[ "proxy" :=
       {| Limits := {[ ResourceMemory := defaultESProxyMemoryLimit ]};
          Requests := <[ ResourceCPU := defaultESProxyCPURequest ]>
                        {[ ResourceMemory := defaultESProxyMemoryRequest ]} |} ]>
  {[ "elasticsearch" :=
       {| Limits := {[ ResourceMemory := defaultESMemoryLimit ]};
          Requests := <[ ResourceCPU := defaultESCpuRequest ]>
                        {[ ResourceMemory := defaultESMemoryRequest ]} |} ]}.

(** Indexing the table: the zero value at a missing key. *)
Definition defaultsFor (name : string) : ResourceRequirements :=
  default noRequirements (defaultResources !! name).

(** [newESResourceRequirements] and [newESProxyResourceRequirements]. *)
Definition newESResourceRequirements
    (nodeResRequirements commonResRequirements : ResourceRequirements)
  : option ResourceRequirements :=
  newResourceRequirements nodeResRequirements commonResRequirements
    (defaultsFor "elasticsearch").

Definition newESProxyResourceRequirements
    (nodeResRequirements commonResRequirements : ResourceRequirements)
  : option ResourceRequirements :=
  newResourceRequirements nodeResRequirements commonResRequirements
    (defaultsFor "proxy").

End Defaults.

(** *** The rules of the network policy *)

(** [v1.Protocol] and [intstr.IntOrString]. *)
Inductive Protocol : Type := ProtocolTCP | ProtocolUDP | ProtocolSCTP.

Inductive IntOrString : Type :=
| FromInt (val : Z)
| FromString (val : string).

(** [networking.NetworkPolicyPeer], [networking.NetworkPolicyPort],
    [networking.NetworkPolicyIngressRule] and the two fields of
    [networking.NetworkPolicySpec] that [newNetworkPolicy] fills. *)
Record NetworkPolicyPeer : Type := mkNetworkPolicyPeer {
  peer_PodSelector : option LabelSelector;
  peer_NamespaceSelector : option LabelSelector
}.

Record NetworkPolicyPort : Type := mkNetworkPolicyPort {
  port_Protocol : option Protocol;
  port_Port : option IntOrString
}.

Record NetworkPolicyIngressRule : Type := mkNetworkPolicyIngressRule {
  rule_From : list NetworkPolicyPeer;
  rule_Ports : list NetworkPolicyPort
}.

Record NetworkPolicyRules : Type := mkNetworkPolicyRules {
  PodSelector : LabelSelector;
  Ingress : list NetworkPolicyIngressRule
}.

(** The body of the policy [newNetworkPolicy] builds, written out. *)
Definition rulesOf (spec : NetworkPolicySpec) : NetworkPolicyRules :=
  match spec with
  | RestrictedToOperatorAndCluster =>
      let protocol := ProtocolTCP in
      let port := FromInt 9200 in
      let internalPort := FromInt 9300 in
      {| PodSelector :=
           {| MatchLabels := {[ "component" := "elasticsearch" ]};
              MatchExpressions := [] |};
         Ingress :=
           [ {| rule_From :=
                  [ {| peer_PodSelector := Some
                         {| MatchLabels :=
                              {[ "name" := "elasticsearch-operator" ]};
                            MatchExpressions := [] |};
                       peer_NamespaceSelector := Some
                         {| MatchLabels := ∅; MatchExpressions := [] |} |} ];
                rule_Ports := [ {| port_Protocol := Some protocol;
                              port_Port := Some port |} ] |};
             {| rule_From :=
                  [ {| peer_PodSelector := Some
                         {| MatchLabels :=
                              {[ "component" := "elasticsearch" ]};
                            MatchExpressions := [] |};
                       peer_NamespaceSelector := None |} ];
                rule_Ports := [ {| port_Protocol := Some protocol;
                              port_Port := Some port |} ] |};
             {| rule_From :=
                  [ {| peer_PodSelector := Some
                         {| MatchLabels :=
                              {[ "component" := "elasticsearch" ]};
                            MatchExpressions := [] |};
                       peer_NamespaceSelector := None |} ];
                rule_Ports := [ {| port_Protocol := Some protocol;
                              port_Port := Some internalPort |} ] |} ] |}
  end.

(** What an ingress rule lets in.  A peer with a pod selector alone
    stands for the selected pods of the policy's own namespace; with a
    namespace selector as well, for the selected pods of the selected
    namespaces.  A port of a rule stands for that protocol (TCP when left
    out) and that number. *)
Definition peerAdmits (peer : NetworkPolicyPeer)
    (sameNamespace : bool) (namespaceLabels podLabels : gmap string string)
  : bool :=
  match peer_NamespaceSelector peer with
  | None => sameNamespace
  | Some sel => selects sel namespaceLabels
  end &&
  match peer_PodSelector peer with
  | None => true
  | Some sel => selects sel podLabels
  end.

Definition portAdmits (p : NetworkPolicyPort) (protocol : Protocol)
    (number : Z) : bool :=
  match default ProtocolTCP (port_Protocol p), protocol with
  | ProtocolTCP, ProtocolTCP | ProtocolUDP, ProtocolUDP
  | ProtocolSCTP, ProtocolSCTP => true
  | _, _ => false
  end &&
  match port_Port p with
  | None => true
  | Some (FromInt n) => bool_decide (n = number)
  | Some (FromString _) => false
  end.

Definition ruleAdmits (rule : NetworkPolicyIngressRule)
    (sameNamespace : bool) (namespaceLabels podLabels : gmap string string)
    (protocol : Protocol) (number : Z) : bool :=
  existsb (λ peer, peerAdmits peer sameNamespace namespaceLabels podLabels)
          (rule_From rule) &&
  existsb (λ p, portAdmits p protocol number) (rule_Ports rule).

Definition admits (rules : NetworkPolicyRules)
    (sameNamespace : bool) (namespaceLabels podLabels : gmap string string)
    (protocol : Protocol) (number : Z) : bool :=
  existsb (λ rule, ruleAdmits rule sameNamespace namespaceLabels podLabels
                     protocol number)
          (Ingress rules).

End elasticsearch.

(** ** Stores to run against *)

Module Stores.
Import Errors Client Run.

(** A store that keeps secrets by key and checks the resource version on
    update, as the API server does. *)
Definition Cluster : Type := gmap ObjectKey Secret.

Definition keyOf (s : Secret) : ObjectKey :=
  mkObjectKey (Name s) (Namespace s).

Definition notFound : error := StatusError StatusReasonNotFound "not found".
Definition alreadyExists : error :=
  StatusError StatusReasonAlreadyExists "already exists".
Definition conflict : error :=
  StatusError StatusReasonConflict "the object has been modified".
Definition unsupported : error := OtherError "unsupported kind".

Definition withVersion (v : string) (s : Secret) : Secret :=
  mkSecret (Kind s) (APIVersion s) (Name s) (Namespace s) v (Labels s)
    (Annotations s) (Immutable s) (Data s) (StringData s) (Type_ s).

Definition clusterClient : Client Cluster :=
  {| clientGet key w :=
       match w !! key with
       | Some s => (inl s, w)
       | None => (inr notFound, w)
       end;
     clientCreate o w :=
       match o with
       | ObjSecret s =>
           match w !! keyOf s with
           | Some _ => (Some alreadyExists, w)
           | None => (None, <[keyOf s := withVersion "1" s]> w)
           end
       | ObjNetworkPolicy _ => (Some unsupported, w)
       end;
     clientUpdate o w :=
       match o with
       | ObjSecret s =>
           match w !! keyOf s with
           | Some old =>
               if bool_decide (ResourceVersion old = ResourceVersion s)
               then (None,
                     <[keyOf s :=
                         withVersion (ResourceVersion s +:+ "'") s]> w)
               else (Some conflict, w)
           | None => (Some notFound, w)
           end
       | ObjNetworkPolicy _ => (Some unsupported, w)
       end;
     clientDelete o w :=
       match o with
       | ObjSecret s =>
           match w !! keyOf s with
           | Some _ => (None, delete (keyOf s) w)
           | None => (Some notFound, w)
           end
       | ObjNetworkPolicy _ => (Some unsupported, w)
       end |}.

(** A store that holds one secret and answers every write with the same
    error (or with success). *)
Definition fixedClient (held : option Secret) (answer : option error)
  : Client unit :=
  {| clientGet _ w :=
       match held with
       | Some s => (inl s, w)
       | None => (inr notFound, w)
       end;
     clientCreate _ w := (answer, w);
     clientUpdate _ w := (answer, w);
     clientDelete _ w := (answer, w) |}.

(** A store whose reads fail with the given error. *)
Definition failingClient (e : error) : Client unit :=
  {| clientGet _ w := (inr e, w);
     clientCreate _ w := (Some e, w);
     clientUpdate _ w := (Some e, w);
     clientDelete _ w := (Some e, w) |}.

Definition start {W} (h : Heap) (w : W) : State W := mkState h w [].

Definition sampleKey : ObjectKey := mkObjectKey "elasticsearch" "logging".

Definition sampleSecret (data : gmap string (list byte)) : Secret :=
  mkSecret "Secret" "v1" "elasticsearch" "logging" "7" ∅ ∅ None data ∅
           "Opaque".

Definition bytesOf (s : string) : list byte := String.list_byte_of_string s.

Definition dataA : gmap string (list byte) :=
  <["admin-key" := bytesOf "k1"]> {["admin-cert" := bytesOf "c1"]}.
Definition dataB : gmap string (list byte) :=
  <["admin-key" := bytesOf "k2"]> {["admin-cert" := bytesOf "c1"]}.

(** The data of [dataA], entered in the other order. *)
Definition dataA' : gmap string (list byte) :=
  <["admin-cert" := bytesOf "c1"]> {["admin-key" := bytesOf "k1"]}.

(** The desired secret at address 1, and a heap that also holds a stored
    copy with other data at address 2. *)
Definition desiredOnly : Heap := {[ 1%positive := sampleSecret dataA ]}.
Definition twoSecrets : Heap :=
  <[ 2%positive := sampleSecret dataB ]> desiredOnly.

Definition storing (s : Secret) : Cluster := {[ sampleKey := s ]}.

(** A store of network policies, kept by name and namespace: a create of
    a policy that is held answers "already exists" and changes nothing, a
    delete of one that is not held answers "not found". *)
Definition Policies : Type := gmap ObjectKey NetworkPolicy.

Definition policyKey (p : NetworkPolicy) : ObjectKey :=
  mkObjectKey (np_Name p) (np_Namespace p).

Definition policyClient : Client Policies :=
  {| clientGet _ w := (inr notFound, w);
     clientCreate o w :=
       match o with
       | ObjNetworkPolicy p =>
           match w !! policyKey p with
           | Some _ => (Some alreadyExists, w)
           | None => (None, <[policyKey p := p]> w)
           end
       | ObjSecret _ => (Some unsupported, w)
       end;
     clientUpdate _ w := (Some unsupported, w);
     clientDelete o w :=
       match o with
       | ObjNetworkPolicy p =>
           match w !! policyKey p with
           | Some _ => (None, delete (policyKey p) w)
           | None => (Some notFound, w)
           end
       | ObjSecret _ => (Some unsupported, w)
       end |}.

Definition sampleOwner : OwnerReference :=
  mkOwnerReference "logging.openshift.io/v1" "Elasticsearch" "elasticsearch"
                   "0f1e" (Some true).

End Stores.


(** * Proof steps shared by the properties below *)

(** The step every proof about the resolver starts with: unfold the two
    blocks and split on each zero test of the goal. *)
Ltac resolver_cases :=
  unfold Resolver.newResourceRequirements, Resolver.resolveMem,
         Resolver.resolveCPU, Resolver.is_set;
  repeat match goal with
         | |- context [Resource.IsZero ?q] =>
             let E := fresh "E" in destruct (Resource.IsZero q) eqn:E
         end;
  cbn [andb orb negb xorb fst snd mbind option_bind].

(** One step of a run: expose the bind of the state monad. *)
Ltac run_bind := unfold mbind, Run.M_bind, mret, Run.M_ret.


(** * Properties of the resolver *)

Section ResolverProperties.
Import Resource Resolver.

Implicit Types node common def : ResourceRequirements.

(** Each of [requestMem], [limitMem] and [requestCPU] has been assigned
    whichever branch was taken. *)
Lemma resolveMem_assigned node common def :
  is_Some (resolveMem node common def).1 ∧
  is_Some (resolveMem node common def).2.
Proof. resolver_cases; split; eauto. Qed.

Lemma resolveCPU_request_assigned node common def :
  is_Some (resolveCPU node common def).1.
Proof. resolver_cases; eauto. Qed.

(** What packaging does with the four pointers. *)
Lemma newResourceRequirements_packaging node common def :
  ∃ rm lm rc,
    resolveMem node common def = (Some rm, Some lm) ∧
    (resolveCPU node common def).1 = Some rc ∧
    newResourceRequirements node common def =
      Some {| Limits :=
                match (resolveCPU node common def).2 with
                | None => {[ "memory" := lm ]}
                | Some lc => <[ "cpu" := lc ]> {[ "memory" := lm ]}
                end;
              Requests := <[ "cpu" := rc ]> {[ "memory" := rm ]} |}.
Proof.
  destruct (resolveMem_assigned node common def) as [[rm Hrm] [lm Hlm]].
  destruct (resolveCPU_request_assigned node common def) as [rc Hrc].
  exists rm, lm, rc. unfold newResourceRequirements.
  destruct (resolveMem node common def) as [a b]; simpl in *; subst.
  destruct (resolveCPU node common def) as [c d]; simpl in *; subst.
  destruct d; auto.
Qed.

Lemma lookup_cpu_memory (c m : Quantity) :
  (<[ "cpu" := c ]> ({[ "memory" := m ]} : ResourceList)) !! "cpu" = Some c ∧
  (<[ "cpu" := c ]> ({[ "memory" := m ]} : ResourceList)) !! "memory"
    = Some m.
Proof. split; by simplify_map_eq. Qed.

Lemma lookup_memory_only (m : Quantity) :
  ({[ "memory" := m ]} : ResourceList) !! "cpu" = None ∧
  ({[ "memory" := m ]} : ResourceList) !! "memory" = Some m.
Proof. split; by simplify_map_eq. Qed.

(** A set quantity read through [Name] is an entry of the list. *)
Lemma Name_set_lookup (rl : ResourceList) name f :
  IsZero (Name rl name f) = false → rl !! name = Some (Name rl name f).
Proof.
  unfold Name. destruct (rl !! name); [done|]. by cbv.
Qed.

(** C10: the resolver is total.  For all three tiers, whatever they
    hold, [newResourceRequirements] returns a result without
    dereferencing a nil pointer; the result's requests hold a cpu and a
    memory entry and its limits hold a memory entry; and the three
    pointers dereferenced unconditionally have been assigned. *)
Theorem newResourceRequirements_total node common def :
  ∃ r, newResourceRequirements node common def = Some r ∧
       is_Some (Requests r !! "cpu") ∧
       is_Some (Requests r !! "memory") ∧
       is_Some (Limits r !! "memory") ∧
       is_Some (resolveMem node common def).1 ∧
       is_Some (resolveMem node common def).2 ∧
       is_Some (resolveCPU node common def).1.
Proof.
  destruct (newResourceRequirements_packaging node common def)
    as (rm & lm & rc & Hm & Hc & ->).
  eexists; split; [reflexivity|]. cbn [Requests Limits].
  destruct (lookup_cpu_memory rc rm) as [-> ->].
  rewrite Hm, Hc. cbn [fst snd].
  repeat split; eauto.
  destruct (resolveCPU node common def).2 as [lc|].
  - destruct (lookup_cpu_memory lc lm) as [_ ->]; eauto.
  - destruct (lookup_memory_only lm) as [_ ->]; eauto.
Qed.

(** C6: with no cluster memory request and no cluster memory limit, and
    exactly one of the workload's memory request and memory limit set,
    the resolved memory request and the resolved memory limit are both
    that one workload value, which is an entry of the workload's own
    lists. *)
Theorem memory_single_workload_value node common def :
  IsZero (Memory (Requests common)) = true →
  IsZero (Memory (Limits common)) = true →
  xorb (is_set (Memory (Requests node))) (is_set (Memory (Limits node)))
    = true →
  ∃ r v, newResourceRequirements node common def = Some r ∧
         v = (if is_set (Memory (Limits node))
              then Memory (Limits node) else Memory (Requests node)) ∧
         Requests r !! "memory" = Some v ∧
         Limits r !! "memory" = Some v ∧
         (if is_set (Memory (Limits node))
          then Limits node !! "memory" = Some v
          else Requests node !! "memory" = Some v).
Proof.
  intros Hcr Hcl Hx.
  destruct (newResourceRequirements_packaging node common def)
    as (rm & lm & rc & Hm & _ & ->).
  eexists; eexists; split; [reflexivity|]. split; [reflexivity|].
  cbn [Requests Limits].
  destruct (lookup_cpu_memory rc rm) as [_ ->].
  assert (Hlim : ∀ o : option Quantity,
            match o with
            | None => ({[ "memory" := lm ]} : ResourceList)
            | Some lc => <[ "cpu" := lc ]> {[ "memory" := lm ]}
            end !! "memory" = Some lm).
  { intros [lc|]; [apply lookup_cpu_memory | apply lookup_memory_only]. }
  rewrite Hlim. clear Hlim.
  revert Hm Hx. unfold resolveMem, is_set. rewrite Hcr, Hcl.
  cbn [andb].
  destruct (IsZero (Memory (Requests node))) eqn:Er,
           (IsZero (Memory (Limits node))) eqn:El;
    cbn [andb negb xorb]; intros [= <- <-] Hx; try discriminate;
    (split; [reflexivity|]; split; [reflexivity|]);
    by apply Name_set_lookup.
Qed.

(** C7: when neither the workload nor the cluster sets a cpu request or
    a cpu limit, the resolved cpu request is the request entry of the
    defaults and no cpu limit is resolved; and for every input the
    limits of the result hold a memory entry, and hold no cpu entry
    whenever no cpu limit was resolved. *)
Theorem cpu_default_request_and_absent_limit :
  (∀ node common def,
     IsZero (Cpu (Requests node)) = true →
     IsZero (Cpu (Limits node)) = true →
     IsZero (Cpu (Requests common)) = true →
     IsZero (Cpu (Limits common)) = true →
     ∃ r, newResourceRequirements node common def = Some r ∧
          (resolveCPU node common def).1
            = Some (index (Requests def) ResourceCPU) ∧
          Requests r !! "cpu" = Some (index (Requests def) ResourceCPU) ∧
          (resolveCPU node common def).2 = None ∧
          Limits r !! "cpu" = None) ∧
  (∀ node common def,
     ∃ r, newResourceRequirements node common def = Some r ∧
          is_Some (Limits r !! "memory") ∧
          ((resolveCPU node common def).2 = None →
           Limits r !! "cpu" = None)).
Proof.
  split.
  - intros node common def Hnr Hnl Hcr Hcl.
    destruct (newResourceRequirements_packaging node common def)
      as (rm & lm & rc & _ & Hc & ->).
    eexists; split; [reflexivity|]. cbn [Requests Limits].
    destruct (lookup_cpu_memory rc rm) as [-> _].
    revert Hc. unfold resolveCPU. rewrite Hnr, Hnl, Hcr, Hcl.
    cbn [andb fst snd]. intros [= <-].
    repeat split; apply lookup_memory_only.
  - intros node common def.
    destruct (newResourceRequirements_packaging node common def)
      as (rm & lm & rc & _ & _ & ->).
    eexists; split; [reflexivity|]. cbn [Limits].
    destruct (resolveCPU node common def).2 as [lc|].
    + destruct (lookup_cpu_memory lc lm) as [_ ->]. split; [eauto|done].
    + destruct (lookup_memory_only lm) as [-> ->]. split; [eauto|done].
Qed.

(** C1, as the code has it: when the cluster sets a cpu request or a cpu
    limit, the resolved cpu limit is the workload's cpu limit if set,
    otherwise the cluster's cpu limit if set, and otherwise there is
    none: the cluster's cpu request is not used as a limit.  The limits
    of the result hold a cpu entry exactly when one of the two limits is
    set. *)
Theorem cpu_limit_with_cluster_tier node common def :
  is_set (Cpu (Requests common)) || is_set (Cpu (Limits common)) = true →
  ∃ r, newResourceRequirements node common def = Some r ∧
       (resolveCPU node common def).2 = cpu_limit_ladder node common ∧
       Limits r !! "cpu" = cpu_limit_ladder node common.
Proof.
  intros Hc.
  destruct (newResourceRequirements_packaging node common def)
    as (rm & lm & rc & _ & _ & ->).
  eexists; split; [reflexivity|]. cbn [Limits].
  assert (E : (resolveCPU node common def).2 = cpu_limit_ladder node common).
  { revert Hc. unfold resolveCPU, cpu_limit_ladder, is_set.
    destruct (IsZero (Cpu (Requests common))),
             (IsZero (Cpu (Limits common))),
             (IsZero (Cpu (Requests node))),
             (IsZero (Cpu (Limits node)));
      cbn [andb orb negb fst snd]; intros; done. }
  rewrite E. split; [done|].
  destruct (cpu_limit_ladder node common) as [lc|].
  - apply lookup_cpu_memory.
  - apply lookup_memory_only.
Qed.

End ResolverProperties.

(** ** Concrete runs of the resolver *)

Section ResolverRuns.
Import Resource Resolver.

Example resolve_nothing_set :
  newResourceRequirements noRequirements noRequirements sampleDefaults
  = Some {| Limits := {[ "memory" := bytes 4294967296 ]};
            Requests := <[ "cpu" := cores 1 ]>
                          {[ "memory" := bytes 1073741824 ]} |}.
Proof. reflexivity. Qed.

Example resolve_cluster_cpu_request_only :
  newResourceRequirements noRequirements (onlyCpuRequest 2) sampleDefaults
  = Some {| Limits := {[ "memory" := bytes 4294967296 ]};
            Requests := <[ "cpu" := cores 2 ]>
                          {[ "memory" := bytes 1073741824 ]} |}.
Proof. reflexivity. Qed.

(** C1 as stated fails: the cluster sets a cpu request of two cores and
    nothing else is set; the claim promises a cpu limit entry of two
    cores, the result has none. *)
Lemma cpu_limit_ladder_counterexample :
  let node := noRequirements in
  let common := onlyCpuRequest 2 in
  is_set (Cpu (Requests common)) || is_set (Cpu (Limits common)) = true ∧
  spec_cpu_limit_ladder node common = cores 2 ∧
  ¬ ∃ r, newResourceRequirements node common sampleDefaults = Some r ∧
         Limits r !! "cpu" = Some (spec_cpu_limit_ladder node common).
Proof.
  cbv zeta. split; [reflexivity|]. split; [reflexivity|].
  intros (r & Hr & Hl). rewrite resolve_cluster_cpu_request_only in Hr.
  injection Hr as <-. cbn [Limits] in Hl.
  by destruct (lookup_memory_only (bytes 4294967296)) as [E _];
    rewrite E in Hl.
Qed.

Lemma cpu_limit_with_cluster_tier_witness :
  ∃ r, newResourceRequirements noRequirements (onlyCpuRequest 2)
         sampleDefaults = Some r ∧
       (resolveCPU noRequirements (onlyCpuRequest 2) sampleDefaults).2
         = cpu_limit_ladder noRequirements (onlyCpuRequest 2) ∧
       Limits r !! "cpu" = cpu_limit_ladder noRequirements (onlyCpuRequest 2).
Proof.
  apply (cpu_limit_with_cluster_tier noRequirements (onlyCpuRequest 2)
           sampleDefaults).
  reflexivity.
Defined.

Lemma memory_single_workload_value_witness :
  ∃ r v, newResourceRequirements (onlyMemoryLimit 4294967296)
           noRequirements sampleDefaults = Some r ∧
         v = bytes 4294967296 ∧
         Requests r !! "memory" = Some v ∧
         Limits r !! "memory" = Some v ∧
         Limits (onlyMemoryLimit 4294967296) !! "memory" = Some v.
Proof.
  apply (memory_single_workload_value (onlyMemoryLimit 4294967296)
           noRequirements sampleDefaults); reflexivity.
Defined.

Lemma cpu_default_request_and_absent_limit_witness :
  ∃ r, newResourceRequirements noRequirements noRequirements sampleDefaults
         = Some r ∧
       (resolveCPU noRequirements noRequirements sampleDefaults).1
         = Some (index (Requests sampleDefaults) ResourceCPU) ∧
       Requests r !! "cpu"
         = Some (index (Requests sampleDefaults) ResourceCPU) ∧
       (resolveCPU noRequirements noRequirements sampleDefaults).2 = None ∧
       Limits r !! "cpu" = None.
Proof.
  apply (proj1 cpu_default_request_and_absent_limit
           noRequirements noRequirements sampleDefaults); reflexivity.
Defined.

End ResolverRuns.

(** * Further properties of the resolver *)

Section ResolverLadders.
Import Resource Resolver.

Implicit Types node common def : ResourceRequirements.

(** The four entries of the result are the four pointers, and the result
    holds nothing else. *)
Lemma newResourceRequirements_entries node common def :
  ∃ r, newResourceRequirements node common def = Some r ∧
       Requests r !! "memory" = (resolveMem node common def).1 ∧
       Limits r !! "memory" = (resolveMem node common def).2 ∧
       Requests r !! "cpu" = (resolveCPU node common def).1 ∧
       Limits r !! "cpu" = (resolveCPU node common def).2 ∧
       ∀ name, name ≠ "cpu" → name ≠ "memory" →
               Requests r !! name = None ∧ Limits r !! name = None.
Proof.
  destruct (newResourceRequirements_packaging node common def)
    as (rm & lm & rc & Hm & Hc & ->).
  eexists; split; [reflexivity|]. cbn [Requests Limits].
  rewrite Hm, Hc. cbn [fst snd].
  destruct (lookup_cpu_memory rc rm) as [-> ->].
  destruct (resolveCPU node common def).2 as [lc|].
  - destruct (lookup_cpu_memory lc lm) as [-> ->].
    repeat split; try done; by simplify_map_eq.
  - destruct (lookup_memory_only lm) as [-> ->].
    repeat split; try done; by simplify_map_eq.
Qed.

(** X1: when the cluster sets a memory request or a memory limit, the
    resolved memory request is the workload's request if set, otherwise
    the cluster's request if set, otherwise the cluster's limit; and the
    resolved memory limit is the workload's limit if set, otherwise the
    cluster's limit if set, otherwise the cluster's request.  The
    defaults play no part. *)
Theorem memory_with_cluster_tier node common def :
  is_set (Memory (Requests common)) || is_set (Memory (Limits common))
    = true →
  ∃ r, newResourceRequirements node common def = Some r ∧
       Requests r !! "memory" =
         Some (if is_set (Memory (Requests node))
               then Memory (Requests node)
               else if is_set (Memory (Requests common))
                    then Memory (Requests common)
                    else Memory (Limits common)) ∧
       Limits r !! "memory" =
         Some (if is_set (Memory (Limits node))
               then Memory (Limits node)
               else if is_set (Memory (Limits common))
                    then Memory (Limits common)
                    else Memory (Requests common)).
Proof.
  intros Hc.
  destruct (newResourceRequirements_entries node common def)
    as (r & Er & Hrm & Hlm & _).
  exists r. split; [done|]. rewrite Hrm, Hlm.
  revert Hc. unfold resolveMem, is_set.
  destruct (IsZero (Memory (Requests common))),
           (IsZero (Memory (Limits common))),
           (IsZero (Memory (Requests node))),
           (IsZero (Memory (Limits node)));
    cbn [andb orb negb fst snd]; intros; done.
Qed.

(** X2: when the cluster sets a cpu request or a cpu limit, the resolved
    cpu request is the workload's request if set, otherwise the cluster's
    request if set, otherwise the cluster's limit: a cluster limit alone
    also becomes the request. *)
Theorem cpu_request_with_cluster_tier node common def :
  is_set (Cpu (Requests common)) || is_set (Cpu (Limits common)) = true →
  ∃ r, newResourceRequirements node common def = Some r ∧
       Requests r !! "cpu" =
         Some (if is_set (Cpu (Requests node))
               then Cpu (Requests node)
               else if is_set (Cpu (Requests common))
                    then Cpu (Requests common)
                    else Cpu (Limits common)).
Proof.
  intros Hc.
  destruct (newResourceRequirements_entries node common def)
    as (r & Er & _ & _ & Hrc & _).
  exists r. split; [done|]. rewrite Hrc.
  revert Hc. unfold resolveCPU, is_set.
  destruct (IsZero (Cpu (Requests common))),
           (IsZero (Cpu (Limits common))),
           (IsZero (Cpu (Requests node))),
           (IsZero (Cpu (Limits node)));
    cbn [andb orb negb fst snd]; intros; done.
Qed.

(** X3: with no cluster cpu value, a workload that sets only a cpu limit
    gets that limit as request and as limit, while a workload that sets
    only a cpu request gets that request and no cpu limit at all: unlike
    memory, a lone request is not copied into the limit. *)
Theorem cpu_single_workload_value node common def :
  IsZero (Cpu (Requests common)) = true →
  IsZero (Cpu (Limits common)) = true →
  xorb (is_set (Cpu (Requests node))) (is_set (Cpu (Limits node))) = true →
  ∃ r, newResourceRequirements node common def = Some r ∧
       if is_set (Cpu (Limits node))
       then Requests r !! "cpu" = Some (Cpu (Limits node)) ∧
            Limits r !! "cpu" = Some (Cpu (Limits node))
       else Requests r !! "cpu" = Some (Cpu (Requests node)) ∧
            Limits r !! "cpu" = None.
Proof.
  intros Hcr Hcl Hx.
  destruct (newResourceRequirements_entries node common def)
    as (r & Er & _ & _ & Hrc & Hlc & _).
  exists r. split; [done|]. rewrite Hrc, Hlc. revert Hx. unfold resolveCPU, is_set.
  rewrite Hcr, Hcl.
  destruct (IsZero (Cpu (Requests node))), (IsZero (Cpu (Limits node)));
    cbn [andb orb negb xorb fst snd]; intros; done.
Qed.

(** X4: a value the workload sets always wins: whatever the cluster and
    the defaults hold, each of the four entries of the result is the
    workload's own value when the workload sets it. *)
Theorem workload_values_win node common def :
  ∃ r, newResourceRequirements node common def = Some r ∧
       (is_set (Memory (Requests node)) = true →
        Requests r !! "memory" = Some (Memory (Requests node))) ∧
       (is_set (Memory (Limits node)) = true →
        Limits r !! "memory" = Some (Memory (Limits node))) ∧
       (is_set (Cpu (Requests node)) = true →
        Requests r !! "cpu" = Some (Cpu (Requests node))) ∧
       (is_set (Cpu (Limits node)) = true →
        Limits r !! "cpu" = Some (Cpu (Limits node))).
Proof.
  destruct (newResourceRequirements_entries node common def)
    as (r & Er & Hrm & Hlm & Hrc & Hlc & _).
  exists r. split; [done|]. rewrite Hrm, Hlm, Hrc, Hlc.
  unfold resolveMem, resolveCPU, is_set.
  repeat split.
  - destruct (IsZero (Memory (Requests common))),
             (IsZero (Memory (Limits common))),
             (IsZero (Memory (Requests node))),
             (IsZero (Memory (Limits node)));
      cbn [andb orb negb fst snd]; intros; done.
  - destruct (IsZero (Memory (Requests common))),
             (IsZero (Memory (Limits common))),
             (IsZero (Memory (Requests node))),
             (IsZero (Memory (Limits node)));
      cbn [andb orb negb fst snd]; intros; done.
  - destruct (IsZero (Cpu (Requests common))),
             (IsZero (Cpu (Limits common))),
             (IsZero (Cpu (Requests node))),
             (IsZero (Cpu (Limits node)));
      cbn [andb orb negb fst snd]; intros; done.
  - destruct (IsZero (Cpu (Requests common))),
             (IsZero (Cpu (Limits common))),
             (IsZero (Cpu (Requests node))),
             (IsZero (Cpu (Limits node)));
      cbn [andb orb negb fst snd]; intros; done.
Qed.

(** X5: the resolver never hands out a zero where a tier gave a value.
    A cpu limit entry of the result is always a set quantity; when the
    workload or the cluster sets a memory value, the memory request and
    the memory limit of the result are both set; when either sets a cpu
    value, the cpu request of the result is set. *)
Theorem resolved_entries_are_set node common def :
  ∃ r, newResourceRequirements node common def = Some r ∧
       (∀ lc, Limits r !! "cpu" = Some lc → is_set lc = true) ∧
       (sets_memory node || sets_memory common = true →
        ∃ rm lm, Requests r !! "memory" = Some rm ∧
                 Limits r !! "memory" = Some lm ∧
                 is_set rm = true ∧ is_set lm = true) ∧
       (sets_cpu node || sets_cpu common = true →
        ∃ rc, Requests r !! "cpu" = Some rc ∧ is_set rc = true).
Proof.
  destruct (newResourceRequirements_entries node common def)
    as (r & Er & Hrm & Hlm & Hrc & Hlc & _).
  exists r. split; [done|]. rewrite Hrm, Hlm, Hrc, Hlc.
  unfold resolveMem, resolveCPU, sets_memory, sets_cpu, is_set.
  split; [|split].
  - destruct (IsZero (Cpu (Requests common))) eqn:E1,
             (IsZero (Cpu (Limits common))) eqn:E2,
             (IsZero (Cpu (Requests node))) eqn:E3,
             (IsZero (Cpu (Limits node))) eqn:E4;
      cbn [andb orb negb fst snd]; intros lc [= <-];
      by rewrite ?E1, ?E2, ?E3, ?E4.
  - destruct (IsZero (Memory (Requests common))) eqn:E1,
             (IsZero (Memory (Limits common))) eqn:E2,
             (IsZero (Memory (Requests node))) eqn:E3,
             (IsZero (Memory (Limits node))) eqn:E4;
      cbn [andb orb negb fst snd]; intros H; try discriminate H;
      eexists _, _; (split; [reflexivity|]); (split; [reflexivity|]);
      by rewrite ?E1, ?E2, ?E3, ?E4.
  - destruct (IsZero (Cpu (Requests common))) eqn:E1,
             (IsZero (Cpu (Limits common))) eqn:E2,
             (IsZero (Cpu (Requests node))) eqn:E3,
             (IsZero (Cpu (Limits node))) eqn:E4;
      cbn [andb orb negb fst snd]; intros H; try discriminate H;
      eexists; (split; [reflexivity|]);
      by rewrite ?E1, ?E2, ?E3, ?E4.
Qed.

(** X6: the defaults are read only for a resource that neither the
    workload nor the cluster sets: when a memory value and a cpu value
    are set somewhere in the two tiers, the result is the same for any
    two tables of defaults. *)
Theorem defaults_read_only_when_unset node common def def' :
  sets_memory node || sets_memory common = true →
  sets_cpu node || sets_cpu common = true →
  newResourceRequirements node common def
  = newResourceRequirements node common def'.
Proof.
  unfold sets_memory, sets_cpu, is_set. intros Hm Hc.
  assert (Em : resolveMem node common def = resolveMem node common def').
  { revert Hm. unfold resolveMem.
    destruct (IsZero (Memory (Requests common))),
             (IsZero (Memory (Limits common))),
             (IsZero (Memory (Requests node))),
             (IsZero (Memory (Limits node)));
      cbn [andb orb negb]; intros; done. }
  assert (Ec : resolveCPU node common def = resolveCPU node common def').
  { revert Hc. unfold resolveCPU.
    destruct (IsZero (Cpu (Requests common))),
             (IsZero (Cpu (Limits common))),
             (IsZero (Cpu (Requests node))),
             (IsZero (Cpu (Limits node)));
      cbn [andb orb negb]; intros; done. }
  unfold newResourceRequirements. by rewrite Em, Ec.
Qed.

(** X7: the result holds exactly a cpu and a memory request, a memory
    limit, and a cpu limit exactly when the workload or the cluster sets
    one; any other resource named in a tier never reaches the result. *)
Theorem result_names node common def :
  ∃ r, newResourceRequirements node common def = Some r ∧
       (∀ name, is_Some (Requests r !! name) ↔
                name = "cpu" ∨ name = "memory") ∧
       (∀ name, is_Some (Limits r !! name) ↔
                name = "memory" ∨
                (name = "cpu" ∧
                 is_set (Cpu (Limits node)) || is_set (Cpu (Limits common))
                   = true)).
Proof.
  destruct (newResourceRequirements_entries node common def)
    as (r & Er & Hrm & Hlm & Hrc & Hlc & Hno).
  destruct (resolveMem_assigned node common def) as [Hm1 Hm2].
  pose proof (resolveCPU_request_assigned node common def) as Hc1.
  assert (Hlimit : is_Some (resolveCPU node common def).2 ↔
                   is_set (Cpu (Limits node)) || is_set (Cpu (Limits common))
                     = true).
  { unfold resolveCPU, is_set.
    destruct (IsZero (Cpu (Requests common))) eqn:E1,
             (IsZero (Cpu (Limits common))) eqn:E2,
             (IsZero (Cpu (Requests node))) eqn:E3,
             (IsZero (Cpu (Limits node))) eqn:E4;
      cbn [andb orb negb fst snd]; split;
      first [done | by intros [? [=]] | by eauto]. }
  exists r. split; [done|]. split; intros name.
  - destruct (decide (name = "cpu")) as [->|Hn1].
    { rewrite Hrc. split; [by left | done]. }
    destruct (decide (name = "memory")) as [->|Hn2].
    { rewrite Hrm. split; [by right | done]. }
    destruct (Hno name Hn1 Hn2) as [-> _].
    split; [by intros [? [=]] | by intros [|]].
  - destruct (decide (name = "cpu")) as [->|Hn1].
    { rewrite Hlc, Hlimit. split; [by right | by intros [[=]|[_ ?]]]. }
    destruct (decide (name = "memory")) as [->|Hn2].
    { rewrite Hlm. split; [by left | done]. }
    destruct (Hno name Hn1 Hn2) as [_ ->].
    split; [by intros [? [=]] | by intros [|[? _]]].
Qed.

(** X8: cpu and memory are resolved separately.  Two runs whose tiers
    agree on the cpu entries give the same cpu entries, whatever else the
    tiers hold, and likewise for memory. *)
Theorem resources_resolved_separately
    node common def node' common' def' (name : string) :
  name = "cpu" ∨ name = "memory" →
  Requests node !! name = Requests node' !! name →
  Limits node !! name = Limits node' !! name →
  Requests common !! name = Requests common' !! name →
  Limits common !! name = Limits common' !! name →
  Requests def !! name = Requests def' !! name →
  Limits def !! name = Limits def' !! name →
  ∃ r r', newResourceRequirements node common def = Some r ∧
          newResourceRequirements node' common' def' = Some r' ∧
          Requests r !! name = Requests r' !! name ∧
          Limits r !! name = Limits r' !! name.
Proof.
  intros Hname H1 H2 H3 H4 H5 H6.
  destruct (newResourceRequirements_entries node common def)
    as (r & Er & Hrm & Hlm & Hrc & Hlc & _).
  destruct (newResourceRequirements_entries node' common' def')
    as (r' & Er' & Hrm' & Hlm' & Hrc' & Hlc' & _).
  exists r, r'. split; [done|]. split; [done|].
  destruct Hname as [-> | ->].
  - rewrite Hrc, Hlc, Hrc', Hlc'.
    assert (resolveCPU node common def = resolveCPU node' common' def')
      as ->; [|done].
    unfold resolveCPU, Cpu, Name, index, ResourceCPU.
    by rewrite H1, H2, H3, H4, H5.
  - rewrite Hrm, Hlm, Hrm', Hlm'.
    assert (resolveMem node common def = resolveMem node' common' def')
      as ->; [|done].
    unfold resolveMem, Memory, Name, index, ResourceMemory.
    by rewrite H1, H2, H3, H4, H5, H6.
Qed.

(** X9: a result is stable.  When the three default entries are set, the
    requirements the resolver returns, given back to it as the workload
    tier with nothing at the cluster tier, are returned unchanged,
    whatever the defaults of the second run. *)
Theorem resolved_requirements_are_stable node common def def' r :
  is_set (index (Limits def) ResourceMemory) = true →
  is_set (index (Requests def) ResourceMemory) = true →
  is_set (index (Requests def) ResourceCPU) = true →
  newResourceRequirements node common def = Some r →
  newResourceRequirements r noRequirements def' = Some r.
Proof.
  intros Hd1 Hd2 Hd3 Hr.
  destruct (newResourceRequirements_packaging node common def)
    as (rm & lm & rc & Hm & Hc & Er).
  rewrite Hr in Er. injection Er as ->.
  assert (Hrm : IsZero rm = false ∧ IsZero lm = false).
  { revert Hm Hd1 Hd2. unfold resolveMem, is_set.
    destruct (IsZero (Memory (Requests common))) eqn:E1,
             (IsZero (Memory (Limits common))) eqn:E2,
             (IsZero (Memory (Requests node))) eqn:E3,
             (IsZero (Memory (Limits node))) eqn:E4;
      cbn [andb orb negb]; intros [= <- <-] Hd1 Hd2;
      rewrite ?E1, ?E2, ?E3, ?E4; split; try done;
      by apply negb_true_iff. }
  destruct Hrm as [Zrm Zlm].
  destruct (resolveCPU node common def) as [rc' lc] eqn:Ecpu.
  cbn [fst snd] in *. subst rc'.
  assert (Hrc : IsZero rc = false ∧
                match lc with Some q => IsZero q = false | None => True end).
  { revert Ecpu Hd3. unfold resolveCPU, is_set.
    destruct (IsZero (Cpu (Requests common))) eqn:E1,
             (IsZero (Cpu (Limits common))) eqn:E2,
             (IsZero (Cpu (Requests node))) eqn:E3,
             (IsZero (Cpu (Limits node))) eqn:E4;
      cbn [andb orb negb]; intros [= <- <-] Hd3;
      rewrite ?E1, ?E2, ?E3, ?E4; split; try done;
      by apply negb_true_iff. }
  destruct Hrc as [Zrc Zlc].
  unfold newResourceRequirements, resolveMem, resolveCPU, Memory, Cpu, Name,
    ResourceMemory, ResourceCPU.
  cbn [Requests Limits noRequirements].
  destruct (lookup_cpu_memory rc rm) as [-> ->].
  rewrite !lookup_empty.
  change (IsZero (zero_with BinarySI)) with true.
  change (IsZero (zero_with DecimalSI)) with true.
  cbn [andb]. rewrite Zrm, Zrc.
  destruct lc as [lc|].
  - destruct (lookup_cpu_memory lc lm) as [-> ->].
    rewrite Zlm, Zlc. reflexivity.
  - destruct (lookup_memory_only lm) as [-> ->].
    rewrite Zlm.
    change (IsZero (zero_with DecimalSI)) with true. reflexivity.
Qed.

End ResolverLadders.

Section ResolverLadderRuns.
Import Resource Resolver.

Lemma memory_with_cluster_tier_witness :
  ∃ r, newResourceRequirements noRequirements (onlyMemoryLimit 2147483648)
         sampleDefaults = Some r ∧
       Requests r !! "memory" = Some (bytes 2147483648) ∧
       Limits r !! "memory" = Some (bytes 2147483648).
Proof.
  apply (memory_with_cluster_tier noRequirements
           (onlyMemoryLimit 2147483648) sampleDefaults).
  reflexivity.
Defined.

Lemma cpu_request_with_cluster_tier_witness :
  ∃ r, newResourceRequirements noRequirements (onlyCpuRequest 2)
         sampleDefaults = Some r ∧
       Requests r !! "cpu" = Some (cores 2).
Proof.
  apply (cpu_request_with_cluster_tier noRequirements (onlyCpuRequest 2)
           sampleDefaults).
  reflexivity.
Defined.

Lemma cpu_single_workload_value_witness :
  ∃ r, newResourceRequirements (onlyCpuRequest 2) noRequirements
         sampleDefaults = Some r ∧
       Requests r !! "cpu" = Some (cores 2) ∧
       Limits r !! "cpu" = None.
Proof.
  apply (cpu_single_workload_value (onlyCpuRequest 2) noRequirements
           sampleDefaults); reflexivity.
Defined.

Lemma defaults_read_only_when_unset_witness :
  newResourceRequirements (memoryAndCpu 1073741824 2) noRequirements
    sampleDefaults
  = newResourceRequirements (memoryAndCpu 1073741824 2) noRequirements
      noRequirements.
Proof.
  apply (defaults_read_only_when_unset (memoryAndCpu 1073741824 2)
           noRequirements sampleDefaults noRequirements); reflexivity.
Defined.

Lemma resources_resolved_separately_witness :
  ∃ r r', newResourceRequirements (onlyCpuRequest 2) noRequirements
            sampleDefaults = Some r ∧
          newResourceRequirements (withStorage 5 (onlyCpuRequest 2))
            (onlyMemoryLimit 7) sampleDefaults = Some r' ∧
          Requests r !! "cpu" = Requests r' !! "cpu" ∧
          Limits r !! "cpu" = Limits r' !! "cpu".
Proof.
  apply (resources_resolved_separately (onlyCpuRequest 2) noRequirements
           sampleDefaults (withStorage 5 (onlyCpuRequest 2))
           (onlyMemoryLimit 7) sampleDefaults "cpu");
    first [by left | reflexivity].
Defined.

Lemma resolved_requirements_are_stable_witness :
  newResourceRequirements (memoryAndCpu 1073741824 2) noRequirements
    noRequirements
  = Some (memoryAndCpu 1073741824 2).
Proof.
  apply (resolved_requirements_are_stable (memoryAndCpu 1073741824 2)
           noRequirements sampleDefaults noRequirements
           (memoryAndCpu 1073741824 2)); reflexivity.
Defined.

End ResolverLadderRuns.

(** * Properties of names, roles, labels and pod templates *)

Section RoleProperties.
Import api Meta elasticsearch.
Local Open Scope list_scope.

Implicit Types (node : ElasticsearchNode)
  (roleMap : gmap ElasticsearchNodeRole bool).

(** The flags after the pass: each is raised exactly when it was raised
    before or its role is among those ranged over. *)
Lemma role_flags (roles : list ElasticsearchNodeRole) (a b c : bool) :
  fold_left
    (λ '(isClient, isData, isMaster) role,
       let isClient :=
         if decide (role = ElasticsearchRoleClient) then true
         else isClient in
       let isData :=
         if decide (role = ElasticsearchRoleData) then true
         else isData in
       let isMaster :=
         if decide (role = ElasticsearchRoleMaster) then true
         else isMaster in
       (isClient, isData, isMaster))
    roles (a, b, c)
  = (a || bool_decide (ElasticsearchRoleClient ∈ roles),
     b || bool_decide (ElasticsearchRoleData ∈ roles),
     c || bool_decide (ElasticsearchRoleMaster ∈ roles)).
Proof.
  revert a b c. induction roles as [|role roles IH]; intros a b c.
  - cbn. by rewrite !orb_false_r.
  - cbn [fold_left]. rewrite IH.
    rewrite !(bool_decide_ext (_ ∈ role :: roles) _ (elem_of_cons _ _ _)).
    rewrite !bool_decide_or.
    destruct role; cbn; repeat case_bool_decide; try done;
      by rewrite ?orb_true_r, ?orb_false_r, ?orb_true_l.
Qed.

Lemma getNodeRoleMap_flags node :
  getNodeRoleMap node =
    <[ ElasticsearchRoleClient :=
         bool_decide (ElasticsearchRoleClient ∈ Roles node) ]>
      (<[ ElasticsearchRoleData :=
            bool_decide (ElasticsearchRoleData ∈ Roles node) ]>
         {[ ElasticsearchRoleMaster :=
              bool_decide (ElasticsearchRoleMaster ∈ Roles node) ]}).
Proof. unfold getNodeRoleMap. by rewrite role_flags. Qed.

Lemma isMasterNode_elem node :
  isMasterNode node = bool_decide (ElasticsearchRoleMaster ∈ Roles node).
Proof.
  unfold isMasterNode. induction (Roles node) as [|role roles IH]; [done|].
  rewrite (bool_decide_ext _ _ (elem_of_cons _ _ _)), bool_decide_or, <- IH.
  destruct (decide (role = ElasticsearchRoleMaster)) as [->|Hne].
  - by rewrite bool_decide_eq_true_2.
  - by rewrite (bool_decide_eq_false_2 (ElasticsearchRoleMaster = role)).
Qed.

Lemma isDataNode_elem node :
  isDataNode node = bool_decide (ElasticsearchRoleData ∈ Roles node).
Proof.
  unfold isDataNode. induction (Roles node) as [|role roles IH]; [done|].
  rewrite (bool_decide_ext _ _ (elem_of_cons _ _ _)), bool_decide_or, <- IH.
  destruct (decide (role = ElasticsearchRoleData)) as [->|Hne].
  - by rewrite bool_decide_eq_true_2.
  - by rewrite (bool_decide_eq_false_2 (ElasticsearchRoleData = role)).
Qed.

Lemma knownRoles_elem role :
  role ∈ knownRoles ↔
  role = ElasticsearchRoleClient ∨ role = ElasticsearchRoleData ∨
  role = ElasticsearchRoleMaster.
Proof. unfold knownRoles. rewrite !elem_of_cons, elem_of_nil. tauto. Qed.

Lemma roleAt_getNodeRoleMap node role :
  roleAt (getNodeRoleMap node) role
  = bool_decide (role ∈ knownRoles) && bool_decide (role ∈ Roles node).
Proof.
  rewrite getNodeRoleMap_flags. unfold roleAt, knownRoles.
  destruct role; by simplify_map_eq.
Qed.

(** X10: the role map and the two role tests agree.  The map built by
    [getNodeRoleMap] holds exactly the three known roles; its master and
    data entries are what [isMasterNode] and [isDataNode] return, although
    these stop at the first hit and the map is built in one full pass;
    and each entry is true exactly when the role is among the node's
    roles. *)
Theorem getNodeRoleMap_agrees_with_role_tests node :
  (∀ role, is_Some (getNodeRoleMap node !! role) ↔ role ∈ knownRoles) ∧
  getNodeRoleMap node !! ElasticsearchRoleMaster
    = Some (isMasterNode node) ∧
  getNodeRoleMap node !! ElasticsearchRoleData = Some (isDataNode node) ∧
  (∀ role, roleAt (getNodeRoleMap node) role = true ↔
           role ∈ knownRoles ∧ role ∈ Roles node).
Proof.
  split; [|split; [|split]].
  - intros role. rewrite getNodeRoleMap_flags, knownRoles_elem.
    destruct role; simplify_map_eq; split;
      first [by eauto | by intros [? [=]] | by intros [|[|]]].
  - rewrite getNodeRoleMap_flags, isMasterNode_elem. by simplify_map_eq.
  - rewrite getNodeRoleMap_flags, isDataNode_elem. by simplify_map_eq.
  - intros role. rewrite roleAt_getNodeRoleMap, andb_true_iff.
    by rewrite !bool_decide_eq_true.
Qed.

(** X11: the role map depends only on which of the three known roles
    occur among the node's roles: their order, repetitions and any other
    role make no difference. *)
Theorem getNodeRoleMap_depends_on_known_roles node node' :
  (∀ role, role ∈ knownRoles →
           (role ∈ Roles node ↔ role ∈ Roles node')) →
  getNodeRoleMap node = getNodeRoleMap node' ∧
  isMasterNode node = isMasterNode node' ∧
  isDataNode node = isDataNode node'.
Proof.
  intros Hsame.
  assert (H : ∀ role, role ∈ knownRoles →
                bool_decide (role ∈ Roles node)
                = bool_decide (role ∈ Roles node')).
  { intros role Hk. apply bool_decide_ext. by apply Hsame. }
  rewrite !getNodeRoleMap_flags, !isMasterNode_elem, !isDataNode_elem.
  rewrite (H ElasticsearchRoleClient), (H ElasticsearchRoleData),
    (H ElasticsearchRoleMaster) by (apply knownRoles_elem; tauto).
  done.
Qed.

End RoleProperties.

Section LabelProperties.
Import api Meta elasticsearch.
Local Open Scope list_scope.

Implicit Types (roleMap : gmap ElasticsearchNodeRole bool).

Lemma FormatBool_inj (a b : bool) : FormatBool a = FormatBool b → a = b.
Proof. by destruct a, b. Qed.

Lemma FormatBool_true (b : bool) : bool_decide (FormatBool b ∈ ["true"]) = b.
Proof. by destruct b. Qed.

(** The six labels, read one by one. *)
Lemma newLabels_lookup clusterName nodeName roleMap :
  let labels := newLabels clusterName nodeName roleMap in
  labels !! "es-node-client"
    = Some (FormatBool (roleAt roleMap ElasticsearchRoleClient)) ∧
  labels !! "es-node-data"
    = Some (FormatBool (roleAt roleMap ElasticsearchRoleData)) ∧
  labels !! "es-node-master"
    = Some (FormatBool (roleAt roleMap ElasticsearchRoleMaster)) ∧
  labels !! "cluster-name" = Some clusterName ∧
  labels !! "component" = Some "elasticsearch" ∧
  labels !! "node-name" = Some nodeName.
Proof. cbv zeta. unfold newLabels. repeat split; by simplify_map_eq. Qed.

Lemma newLabelSelector_lookup clusterName nodeName roleMap k v :
  newLabelSelector clusterName nodeName roleMap !! k = Some v ↔
  (k = "es-node-client" ∧
   v = FormatBool (roleAt roleMap ElasticsearchRoleClient)) ∨
  (k = "es-node-data" ∧
   v = FormatBool (roleAt roleMap ElasticsearchRoleData)) ∨
  (k = "es-node-master" ∧
   v = FormatBool (roleAt roleMap ElasticsearchRoleMaster)) ∨
  (k = "cluster-name" ∧ v = clusterName) ∨
  (k = "node-name" ∧ v = nodeName).
Proof.
  unfold newLabelSelector.
  rewrite !lookup_insert_Some, lookup_singleton_Some.
  split.
  - intros [[<- <-]|[_ [[<- <-]|[_ [[<- <-]|[_ [[<- <-]|[_ [<- <-]]]]]]]]];
      tauto.
  - intros [[-> ->]|[[-> ->]|[[-> ->]|[[-> ->]|[-> ->]]]]].
    + by left.
    + right. split; [done|]. by left.
    + right. split; [done|]. right. split; [done|]. by left.
    + right. split; [done|]. right. split; [done|]. right.
      split; [done|]. by left.
    + right. split; [done|]. right. split; [done|]. right.
      split; [done|]. right. split; [done|]. done.
Qed.

(** X12: the selector of a node selects the pods of that node and no
    others.  The labels are the selector plus the component label; and a
    selector built for one cluster name, node name and role map selects
    the labels built for another exactly when the two cluster names and
    the two node names are equal and the role maps agree on the three
    known roles. *)
Theorem newLabelSelector_selects_its_own_pods
    clusterName nodeName roleMap clusterName' nodeName' roleMap' :
  newLabels clusterName nodeName roleMap
    = <[ "component" := "elasticsearch" ]>
        (newLabelSelector clusterName nodeName roleMap) ∧
  (selects (mkLabelSelector (newLabelSelector clusterName nodeName roleMap) [])
           (newLabels clusterName' nodeName' roleMap') = true ↔
   clusterName = clusterName' ∧ nodeName = nodeName' ∧
   ∀ role, role ∈ knownRoles → roleAt roleMap role = roleAt roleMap' role).
Proof.
  split.
  { unfold newLabels, newLabelSelector. apply map_eq. intros k.
    destruct (decide (k = "component")) as [->|?]; [by simplify_map_eq|].
    rewrite (lookup_insert_ne _ "component" k) by done.
    destruct (decide (k = "es-node-client")) as [->|?];
      [by simplify_map_eq|].
    destruct (decide (k = "es-node-data")) as [->|?]; [by simplify_map_eq|].
    destruct (decide (k = "es-node-master")) as [->|?];
      [by simplify_map_eq|].
    destruct (decide (k = "cluster-name")) as [->|?]; [by simplify_map_eq|].
    destruct (decide (k = "node-name")) as [->|?]; [by simplify_map_eq|].
    by rewrite !lookup_insert_ne, !lookup_singleton_ne by done. }
  unfold selects. cbn [MatchLabels MatchExpressions forallb].
  rewrite andb_true_r, bool_decide_eq_true.
  destruct (newLabels_lookup clusterName' nodeName' roleMap')
    as (L1 & L2 & L3 & L4 & _ & L6). cbv zeta in *.
  split.
  - intros Hall.
    pose proof (Hall "es-node-client" _
      (proj2 (newLabelSelector_lookup _ _ _ _ _)
         (or_introl (conj eq_refl eq_refl)))) as H1.
    pose proof (Hall "es-node-data" _
      (proj2 (newLabelSelector_lookup _ _ _ _ _)
         (or_intror (or_introl (conj eq_refl eq_refl))))) as H2.
    pose proof (Hall "es-node-master" _
      (proj2 (newLabelSelector_lookup _ _ _ _ _)
         (or_intror (or_intror (or_introl (conj eq_refl eq_refl)))))) as H3.
    pose proof (Hall "cluster-name" _
      (proj2 (newLabelSelector_lookup _ _ _ _ _)
         (or_intror (or_intror (or_intror
            (or_introl (conj eq_refl eq_refl))))))) as H4.
    pose proof (Hall "node-name" _
      (proj2 (newLabelSelector_lookup _ _ _ _ _)
         (or_intror (or_intror (or_intror
            (or_intror (conj eq_refl eq_refl))))))) as H5.
    cbv beta in *.
    rewrite L1 in H1. rewrite L2 in H2. rewrite L3 in H3.
    rewrite L4 in H4. rewrite L6 in H5.
    injection H1 as H1%FormatBool_inj. injection H2 as H2%FormatBool_inj.
    injection H3 as H3%FormatBool_inj. injection H4 as <-.
    injection H5 as <-.
    split; [done|]. split; [done|].
    intros role [->|[->| ->]]%knownRoles_elem; done.
  - intros (<- & <- & Hroles) k v.
    rewrite newLabelSelector_lookup.
    intros [[-> ->]|[[-> ->]|[[-> ->]|[[-> ->]|[-> ->]]]]]; cbv beta;
      rewrite ?L1, ?L2, ?L3, ?L4, ?L6; try done; f_equal; f_equal;
      symmetry; apply Hroles, knownRoles_elem; tauto.
Qed.

Lemma requirementHolds_true (labels : gmap string string) k b :
  labels !! k = Some (FormatBool b) →
  requirementHolds labels
    (mkLabelSelectorRequirement k LabelSelectorOpIn ["true"]) = b.
Proof.
  intros Hk. unfold requirementHolds. cbn [Operator Key Values].
  rewrite Hk. apply FormatBool_true.
Qed.

(** X13: the anti-affinity of a node prefers to keep it away from pods
    that play all of its roles.  [newAffinity] builds one preferred term
    with one selector, holding one requirement per role that is true in
    the role map; that selector selects the labels [newLabels] builds for
    a role map exactly when every known role true in the first map is
    true in the second. *)
Theorem newAffinity_selects_pods_with_the_same_roles roleMap :
  ∃ sel, preferredSelectors (newAffinity roleMap) = [sel] ∧
         MatchLabels sel = ∅ ∧
         length (MatchExpressions sel)
           = length (List.filter (roleAt roleMap) knownRoles) ∧
         ∀ clusterName nodeName roleMap',
           selects sel (newLabels clusterName nodeName roleMap') = true ↔
           ∀ role, role ∈ knownRoles → roleAt roleMap role = true →
                   roleAt roleMap' role = true.
Proof.
  eexists. split; [reflexivity|]. split; [reflexivity|].
  cbn [MatchExpressions List.filter knownRoles]. split.
  - by destruct (roleAt roleMap ElasticsearchRoleClient),
               (roleAt roleMap ElasticsearchRoleData),
               (roleAt roleMap ElasticsearchRoleMaster).
  - intros clusterName nodeName roleMap'.
    destruct (newLabels_lookup clusterName nodeName roleMap')
      as (L1 & L2 & L3 & _). cbv zeta in *.
    pose proof (requirementHolds_true _ _ _ L1) as R1.
    pose proof (requirementHolds_true _ _ _ L2) as R2.
    pose proof (requirementHolds_true _ _ _ L3) as R3.
    unfold selects. cbn [MatchLabels MatchExpressions].
    rewrite bool_decide_eq_true_2 by apply map_Forall_empty.
    cbn [andb].
    assert (Hk : ∀ P : ElasticsearchNodeRole → Prop,
              (∀ role, role ∈ knownRoles → P role) ↔
              P ElasticsearchRoleClient ∧ P ElasticsearchRoleData ∧
              P ElasticsearchRoleMaster).
    { intros P. split.
      - intros H. repeat split; apply H, knownRoles_elem; tauto.
      - intros (? & ? & ?) role [->|[->| ->]]%knownRoles_elem; done. }
    rewrite (Hk (λ role, roleAt roleMap role = true →
                         roleAt roleMap' role = true)).
    destruct (roleAt roleMap ElasticsearchRoleClient),
             (roleAt roleMap ElasticsearchRoleData),
             (roleAt roleMap ElasticsearchRoleMaster);
      cbn [app forallb]; rewrite ?R1, ?R2, ?R3, ?andb_true_r;
      rewrite ?andb_true_iff; intuition congruence.
Qed.

End LabelProperties.

Section NameProperties.
Import elasticsearch.
Local Open Scope list_scope.

Lemma list_ascii_of_string_app (s1 s2 : string) :
  String.list_ascii_of_string (s1 +:+ s2)
  = String.list_ascii_of_string s1 ++ String.list_ascii_of_string s2.
Proof. induction s1 as [|a s1 IH]; [done|]. cbn. by rewrite <- IH. Qed.

Lemma list_ascii_of_string_inj (s1 s2 : string) :
  String.list_ascii_of_string s1 = String.list_ascii_of_string s2 → s1 = s2.
Proof.
  intros H. rewrite <- (String.string_of_list_ascii_of_string s1),
    <- (String.string_of_list_ascii_of_string s2). by rewrite H.
Qed.

(** Two names with the same suffix are equal only for equal stems. *)
Lemma suffix_inj (suffix s1 s2 : string) :
  s1 +:+ suffix = s2 +:+ suffix → s1 = s2.
Proof.
  intros H%(f_equal String.list_ascii_of_string).
  rewrite !list_ascii_of_string_app in H.
  by apply app_inv_tail, list_ascii_of_string_inj in H.
Qed.

(** Two names that end in different characters differ. *)
Lemma suffix_last (s1 s2 t1 t2 : string) (a b : Ascii.ascii) :
  a ≠ b → s1 +:+ (t1 +:+ String a "") ≠ s2 +:+ (t2 +:+ String b "").
Proof.
  intros Hab H%(f_equal String.list_ascii_of_string).
  rewrite !list_ascii_of_string_app in H. cbn in H.
  rewrite !app_assoc in H. by apply app_inj_tail in H as [_ ?].
Qed.

(** X14: the names generated for a deployment do not collide.  Each of
    the three name functions gives different names to different
    deployments, and no name of one function is a name of another, for
    whatever deployments. *)
Theorem generated_names_do_not_collide (dplName dplName' : string) :
  (serviceMonitorServiceAccountName dplName
     = serviceMonitorServiceAccountName dplName' → dplName = dplName') ∧
  (serviceMonitorServiceAccountTokenName dplName
     = serviceMonitorServiceAccountTokenName dplName' →
   dplName = dplName') ∧
  (serviceCABundleName dplName = serviceCABundleName dplName' →
   dplName = dplName') ∧
  serviceMonitorServiceAccountName dplName
    ≠ serviceMonitorServiceAccountTokenName dplName' ∧
  serviceMonitorServiceAccountName dplName ≠ serviceCABundleName dplName' ∧
  serviceMonitorServiceAccountTokenName dplName
    ≠ serviceCABundleName dplName'.
Proof.
  unfold serviceMonitorServiceAccountTokenName,
    serviceMonitorServiceAccountName, serviceCABundleName.
  repeat split.
  - apply suffix_inj.
  - intros H%suffix_inj. by apply suffix_inj in H.
  - apply suffix_inj.
  - by apply (suffix_last dplName (dplName' +:+ "-metrics")
                "-metric" "-toke").
  - by apply (suffix_last dplName dplName' "-metric" "-ca-bundl").
  - by apply (suffix_last (dplName +:+ "-metrics") dplName'
                "-toke" "-ca-bundl").
Qed.

End NameProperties.

Section PodTemplateProperties.
Import elasticsearch.
Context {Volume ObjectMeta SpecRest : Type}.
Implicit Types current desired : PodTemplateSpec Volume ObjectMeta SpecRest.

(** X15: [createUpdatablePodTemplateSpec] returns the desired template
    with the volumes of the current one.  So it returns the desired
    template itself exactly when the two already have the same volumes,
    it leaves the current template as it is when that is also the desired
    one, and taking the volumes of [current] a second time, or after
    those of any other template, changes nothing. *)
Theorem createUpdatablePodTemplateSpec_takes_current_volumes
    current current' desired :
  let updatable := createUpdatablePodTemplateSpec current desired in
  Volumes (Spec updatable) = Volumes (Spec current) ∧
  specRest (Spec updatable) = specRest (Spec desired) ∧
  ObjectMeta_ updatable = ObjectMeta_ desired ∧
  (updatable = desired ↔ Volumes (Spec current) = Volumes (Spec desired)) ∧
  createUpdatablePodTemplateSpec current current = current ∧
  createUpdatablePodTemplateSpec current
    (createUpdatablePodTemplateSpec current' desired) = updatable.
Proof.
  cbv zeta. unfold createUpdatablePodTemplateSpec.
  destruct current as [cm [cv cr]], desired as [dm [dv dr]]. cbn.
  repeat split; try done.
  - by intros [= ->].
  - by intros ->.
Qed.

End PodTemplateProperties.

Section DefaultsProperties.
Import Resource Resolver elasticsearch.

Lemma resolveMem_without_defaults node common def def' :
  sets_memory node || sets_memory common = true →
  resolveMem node common def = resolveMem node common def'.
Proof.
  unfold sets_memory, is_set, resolveMem.
  destruct (IsZero (Memory (Requests common))),
           (IsZero (Memory (Limits common))),
           (IsZero (Memory (Requests node))),
           (IsZero (Memory (Limits node)));
    cbn [andb orb negb]; intros; done.
Qed.

Lemma resolveCPU_without_defaults node common def def' :
  sets_cpu node || sets_cpu common = true →
  resolveCPU node common def = resolveCPU node common def'.
Proof.
  unfold sets_cpu, is_set, resolveCPU.
  destruct (IsZero (Cpu (Requests common))),
           (IsZero (Cpu (Limits common))),
           (IsZero (Cpu (Requests node))),
           (IsZero (Cpu (Limits node)));
    cbn [andb orb negb]; intros; done.
Qed.

(** X16: the elasticsearch container and the proxy container are sized
    by the same rules and differ only in their defaults.  When neither
    the workload nor the cluster sets any cpu or memory value, each gets
    its own entry of [defaultResources], unchanged; when a memory value
    and a cpu value are set, both get the same requirements. *)
Theorem containers_differ_only_in_defaults
    (proxyMemoryLimit proxyCPURequest proxyMemoryRequest
     esMemoryLimit esCpuRequest esMemoryRequest : Quantity)
    (node common : ResourceRequirements) :
  let table := defaultResources proxyMemoryLimit proxyCPURequest
                 proxyMemoryRequest esMemoryLimit esCpuRequest
                 esMemoryRequest in
  let forES := newESResourceRequirements proxyMemoryLimit proxyCPURequest
                 proxyMemoryRequest esMemoryLimit esCpuRequest
                 esMemoryRequest node common in
  let forProxy := newESProxyResourceRequirements proxyMemoryLimit
                    proxyCPURequest proxyMemoryRequest esMemoryLimit
                    esCpuRequest esMemoryRequest node common in
  (sets_memory node || sets_memory common = false →
   sets_cpu node || sets_cpu common = false →
   forES = table !! "elasticsearch" ∧ forProxy = table !! "proxy" ∧
   is_Some forES ∧ is_Some forProxy) ∧
  (sets_memory node || sets_memory common = true →
   sets_cpu node || sets_cpu common = true →
   forES = forProxy).
Proof.
  cbv zeta. split.
  - unfold sets_memory, sets_cpu, is_set. intros Hm Hc.
    unfold newESResourceRequirements, newESProxyResourceRequirements,
      defaultsFor, defaultResources.
    rewrite lookup_insert_eq. rewrite lookup_insert_ne by done.
    rewrite lookup_singleton_eq. cbn [default].
    unfold newResourceRequirements, resolveMem, resolveCPU.
    destruct (IsZero (Memory (Requests common))),
             (IsZero (Memory (Limits common))),
             (IsZero (Memory (Requests node))),
             (IsZero (Memory (Limits node))); try discriminate Hm.
    destruct (IsZero (Cpu (Requests common))),
             (IsZero (Cpu (Limits common))),
             (IsZero (Cpu (Requests node))),
             (IsZero (Cpu (Limits node))); try discriminate Hc.
    cbn [andb Limits Requests mbind option_bind].
    unfold index, ResourceMemory, ResourceCPU.
    cbn [id Limits Requests].
    rewrite !lookup_singleton_eq, !lookup_insert_eq.
    rewrite !(lookup_insert_ne _ "cpu" "memory") by done.
    rewrite !lookup_singleton_eq. cbn. eauto.
  - intros Hm Hc.
    unfold newESResourceRequirements, newESProxyResourceRequirements,
      newResourceRequirements.
    by rewrite (resolveMem_without_defaults node common _
                  (defaultsFor proxyMemoryLimit proxyCPURequest
                     proxyMemoryRequest esMemoryLimit esCpuRequest
                     esMemoryRequest "proxy") Hm),
               (resolveCPU_without_defaults node common _
                  (defaultsFor proxyMemoryLimit proxyCPURequest
                     proxyMemoryRequest esMemoryLimit esCpuRequest
                     esMemoryRequest "proxy") Hc).
Qed.

End DefaultsProperties.

Section RoleRuns.
Import api Meta elasticsearch.
Local Open Scope list_scope.

Lemma getNodeRoleMap_depends_on_known_roles_witness :
  getNodeRoleMap
    (nodeOf [ElasticsearchRoleMaster; ElasticsearchRoleData;
             ElasticsearchRoleMaster])
  = getNodeRoleMap
      (nodeOf [ElasticsearchRoleOther "ingest"; ElasticsearchRoleData;
               ElasticsearchRoleMaster]) ∧
  isMasterNode
    (nodeOf [ElasticsearchRoleMaster; ElasticsearchRoleData;
             ElasticsearchRoleMaster])
  = isMasterNode
      (nodeOf [ElasticsearchRoleOther "ingest"; ElasticsearchRoleData;
               ElasticsearchRoleMaster]) ∧
  isDataNode
    (nodeOf [ElasticsearchRoleMaster; ElasticsearchRoleData;
             ElasticsearchRoleMaster])
  = isDataNode
      (nodeOf [ElasticsearchRoleOther "ingest"; ElasticsearchRoleData;
               ElasticsearchRoleMaster]).
Proof.
  apply (getNodeRoleMap_depends_on_known_roles
           (nodeOf [ElasticsearchRoleMaster; ElasticsearchRoleData;
                    ElasticsearchRoleMaster])
           (nodeOf [ElasticsearchRoleOther "ingest"; ElasticsearchRoleData;
                    ElasticsearchRoleMaster])).
  intros role [->|[->| ->]]%knownRoles_elem; cbn [Roles nodeOf];
    rewrite !elem_of_cons, !elem_of_nil; intuition congruence.
Defined.

End RoleRuns.


(** * Properties of the secret package and of the network policy calls *)

Section RunLemmas.
Import Errors Client Run.
Context {W : Type}.
Implicit Types (st : State W) (c : Client W).

Lemma load_run st p v : heap st !! p = Some v → load p st = Some (v, st).
Proof. unfold load. by intros ->. Qed.

Lemma alloc_run st v :
  ∃ p, alloc v st
       = Some (p, mkState (<[p := v]> (heap st)) (world st) (trace st)) ∧
       heap st !! p = None.
Proof.
  eexists; split; [reflexivity|].
  apply not_elem_of_dom, is_fresh.
Qed.

Lemma callGet_run c key into st :
  is_Some (heap st !! into) →
  callGet c key into st =
    match (clientGet c key (world st)).1 with
    | inl s =>
        Some (None, mkState (<[into := s]> (heap st))
                      (clientGet c key (world st)).2
                      (trace st ++ [EvGet key (inl s)]))
    | inr e =>
        Some (Some e, mkState (heap st) (clientGet c key (world st)).2
                        (trace st ++ [EvGet key (inr e)]))
    end.
Proof.
  intros [v Hv]. unfold callGet, record. rewrite Hv.
  by destruct (clientGet c key (world st)) as [[s|e] w].
Qed.

Lemma callUpdate_run c p st v :
  heap st !! p = Some v →
  callUpdate c p st =
    Some ((clientUpdate c (ObjSecret v) (world st)).1,
          mkState (heap st) (clientUpdate c (ObjSecret v) (world st)).2
            (trace st ++ [EvUpdate (ObjSecret v)
                            (clientUpdate c (ObjSecret v) (world st)).1])).
Proof.
  intros Hv. unfold callUpdate, record. rewrite Hv.
  by destruct (clientUpdate c (ObjSecret v) (world st)).
Qed.



End RunLemmas.

Section MutateProperties.
Import Errors Client Run secret.

Lemma set_Data_same (s : Secret) : set_Data (Data s) s = s.
Proof. by destruct s. Qed.

Lemma set_Annotations_same (s : Secret) :
  set_Annotations (Annotations s) s = s.
Proof. by destruct s. Qed.

Lemma assignData_run (h : Heap) current desired c d :
  h !! current = Some c → h !! desired = Some d →
  assignData current desired h
    = Some (<[current := set_Data (Data d) c]> h) ∧
  <[current := set_Data (Data d) c]> h !! desired = Some d.
Proof.
  intros Hc Hd. unfold assignData. rewrite Hd, Hc. split; [done|].
  destruct (decide (current = desired)) as [->|Hne].
  - rewrite lookup_insert_eq. simplify_eq. by rewrite set_Data_same.
  - by rewrite lookup_insert_ne.
Qed.

Lemma assignAnnotations_run (h : Heap) current desired c d :
  h !! current = Some c → h !! desired = Some d →
  assignAnnotations current desired h
    = Some (<[current := set_Annotations (Annotations d) c]> h) ∧
  <[current := set_Annotations (Annotations d) c]> h !! desired = Some d.
Proof.
  intros Hc Hd. unfold assignAnnotations. rewrite Hd, Hc. split; [done|].
  destruct (decide (current = desired)) as [->|Hne].
  - rewrite lookup_insert_eq. simplify_eq. by rewrite set_Annotations_same.
  - by rewrite lookup_insert_ne.
Qed.

Lemma MutateDataOnly_run (h : Heap) current desired c d :
  h !! current = Some c → h !! desired = Some d →
  MutateDataOnly current desired h
    = Some (<[current := set_Data (Data d) c]> h) ∧
  <[current := set_Data (Data d) c]> h !! desired = Some d.
Proof. apply assignData_run. Qed.

Lemma MutateAnnotationsAndDataOnly_run (h : Heap) current desired c d :
  h !! current = Some c → h !! desired = Some d →
  let c' := set_Data (Data d) (set_Annotations (Annotations d) c) in
  MutateAnnotationsAndDataOnly current desired h
    = Some (<[current := c']> h) ∧
  <[current := c']> h !! desired = Some d.
Proof.
  intros Hc Hd c'.
  destruct (assignAnnotations_run h current desired c d Hc Hd) as [E1 Hdes1].
  set (c1 := set_Annotations (Annotations d) c) in *.
  set (h1 := <[current := c1]> h) in *.
  assert (Hc1 : h1 !! current = Some c1) by apply lookup_insert_eq.
  destruct (assignData_run h1 current desired c1 d Hc1 Hdes1) as [E2 Hdes2].
  unfold MutateAnnotationsAndDataOnly. rewrite E1. cbn [mbind option_bind].
  rewrite E2. subst h1 c'. rewrite insert_insert_eq in *. done.
Qed.

(** C5: on any heap and any two allocated addresses, equal or not,
    [MutateDataOnly] changes of [*current] only the data, which becomes
    the data of [*desired], and [MutateAnnotationsAndDataOnly] only the
    annotations and the data; every other field of [*current], the
    resource version among them, [*desired] and every other object of the
    heap are as before. *)
Theorem mutate_changes_selected_fields_only
    (h : Heap) (current desired : loc) (c d : Secret) :
  h !! current = Some c → h !! desired = Some d →
  (∃ h' c', MutateDataOnly current desired h = Some h' ∧
            h' !! current = Some c' ∧
            Data c' = Data d ∧ same_but_data c c' ∧
            h' !! desired = Some d ∧
            ∀ p, p ≠ current → h' !! p = h !! p) ∧
  (∃ h' c', MutateAnnotationsAndDataOnly current desired h = Some h' ∧
            h' !! current = Some c' ∧
            Annotations c' = Annotations d ∧ Data c' = Data d ∧
            same_but_annotations_and_data c c' ∧
            h' !! desired = Some d ∧
            ∀ p, p ≠ current → h' !! p = h !! p).
Proof.
  intros Hc Hd. split.
  - destruct (MutateDataOnly_run h current desired c d Hc Hd) as [E Hdes].
    eexists _, _. split; [exact E|]. split; [apply lookup_insert_eq|].
    split; [done|]. split; [by repeat split|]. split; [done|].
    intros p Hp. by rewrite lookup_insert_ne.
  - destruct (MutateAnnotationsAndDataOnly_run h current desired c d Hc Hd)
      as [E Hdes].
    eexists _, _. split; [exact E|]. split; [apply lookup_insert_eq|].
    split; [done|]. split; [done|]. split; [by repeat split|].
    split; [done|].
    intros p Hp. by rewrite lookup_insert_ne.
Qed.


Lemma MutateAnnotationsAndDataOnly_safe :
  mutate_safe MutateAnnotationsAndDataOnly.
Proof.
  intros current desired h [c Hc] [d Hd].
  destruct (MutateAnnotationsAndDataOnly_run h current desired c d Hc Hd)
    as [E Hdes].
  eexists. split; [exact E|]. rewrite lookup_insert_eq. eauto.
Qed.

End MutateProperties.

Section CreateOrUpdateProperties.
Import Errors Client Run secret.
Local Open Scope list_scope.
Local Open Scope nat_scope.
Context {W : Type}.
Implicit Types (st : State W) (c : Client W).

(** Where [CreateOrUpdate] stands after its first get has answered:
    [current] is a new address, [s] still holds the desired secret. *)
Lemma CreateOrUpdate_start c s equal mutate st desired :
  heap st !! s = Some desired →
  let key := mkObjectKey (Name desired) (Namespace desired) in
  ∃ current, heap st !! current = None ∧ current ≠ s ∧
    CreateOrUpdate c s equal mutate st =
      let w := (clientGet c key (world st)).2 in
      match (clientGet c key (world st)).1 with
      | inr e =>
          let st1 := mkState (<[current := emptySecret]> (heap st)) w
                             (trace st ++ [EvGet key (inr e)]) in
          if IsNotFound e then
            (err ← callCreate c s;
             match err with
             | None => mret None
             | Some e' =>
                 sv ← load s;
                 mret (Wrap (Some e') "failed to create secret"
                            (keysAndValues sv))
             end) st1
          else
            Some (Wrap (Some e) "failed to get secret"
                       (keysAndValues desired), st1)
      | inl cur =>
          let st1 := mkState (<[current := cur]>
                                (<[current := emptySecret]> (heap st))) w
                             (trace st ++ [EvGet key (inl cur)]) in
          if negb (equal cur desired) then
            (err ← RetryOnConflict DefaultRetry
                     (updateAttempt c key current s mutate);
             match err with
             | Some e =>
                 sv ← load s;
                 mret (Wrap (Some e) "failed to update secret"
                            (keysAndValues sv))
             | None => mret None
             end) st1
          else Some (None, st1)
      end.
Proof.
  intros Hs key.
  destruct (alloc_run st emptySecret) as (current & Ea & Hfresh).
  exists current. split; [done|].
  assert (Hne : current ≠ s) by (intros ->; congruence).
  split; [done|].
  unfold CreateOrUpdate. run_bind. rewrite Ea. cbv beta iota.
  rewrite (load_run _ s desired) by (cbn; by rewrite lookup_insert_ne).
  cbv beta iota zeta. fold key.
  rewrite callGet_run by (cbn; rewrite lookup_insert_eq; eauto).
  cbn [heap world trace].
  destruct (clientGet c key (world st)) as [[cur|e] w]; cbn [fst snd].
  - cbv beta iota.
    rewrite (load_run _ current cur) by (cbn; by rewrite lookup_insert_eq).
    cbv beta iota.
    rewrite (load_run _ s desired)
      by (cbn; by rewrite !lookup_insert_ne).
    cbv beta iota. by destruct (negb (equal cur desired)).
  - cbv beta iota. destruct (IsNotFound e); [reflexivity|].
    rewrite (load_run _ s desired) by (cbn; by rewrite lookup_insert_ne).
    reflexivity.
Qed.

(** C3: when the secret read from the store is equal to the desired one
    under the given equality, [CreateOrUpdate] returns no error and its
    only call to the store is that read: it creates nothing and updates
    nothing. *)
Theorem CreateOrUpdate_equal_writes_nothing
    c s equal mutate st desired cur w' :
  heap st !! s = Some desired →
  clientGet c (mkObjectKey (Name desired) (Namespace desired)) (world st)
    = (inl cur, w') →
  equal cur desired = true →
  ∃ st', CreateOrUpdate c s equal mutate st = Some (None, st') ∧
         trace st' = trace st ++
           [EvGet (mkObjectKey (Name desired) (Namespace desired)) (inl cur)] ∧
         List.filter is_write (trace st') = List.filter is_write (trace st) ∧
         world st' = w' ∧
         heap st' !! s = Some desired.
Proof.
  intros Hs Hget Heq.
  destruct (CreateOrUpdate_start c s equal mutate st desired Hs)
    as (current & Hfresh & Hne & ->).
  rewrite Hget. cbn [fst snd]. rewrite Heq. cbn [negb].
  eexists. split; [reflexivity|]. cbn [trace world heap].
  split; [done|]. split.
  - rewrite List.filter_app. cbn. by rewrite app_nil_r.
  - split; [done|]. by rewrite !lookup_insert_ne.
Qed.





End CreateOrUpdateProperties.

Section StoreFailures.
Import Errors Client Run secret elasticsearch.
Local Open Scope list_scope.
Context {W : Type}.
Implicit Types (st : State W) (c : Client W).



End StoreFailures.

(** ** Concrete runs of the secret package *)

Section SecretRuns.
Import Errors Client Run secret elasticsearch Stores GoMap.
Local Open Scope list_scope.

Example create_when_absent :
  (λ r, (r.1, world r.2)) <$>
    CreateOrUpdate clusterClient 1%positive DataEqual MutateDataOnly
                   (start desiredOnly ∅)
  = Some (None, storing (withVersion "1" (sampleSecret dataA))).
Proof. vm_compute. reflexivity. Qed.

Example update_when_different :
  (λ r, (r.1, world r.2)) <$>
    CreateOrUpdate clusterClient 1%positive DataEqual MutateDataOnly
                   (start desiredOnly (storing (sampleSecret dataB)))
  = Some (None, storing (withVersion "7'" (sampleSecret dataA))).
Proof. vm_compute. reflexivity. Qed.

Example five_conflicts_then_give_up :
  (λ r, (r.1, length (List.filter is_update (trace r.2)),
         length (List.filter is_get (trace r.2)))) <$>
    CreateOrUpdate (fixedClient (Some (sampleSecret dataB)) (Some conflict))
                   1%positive DataEqual MutateDataOnly (start desiredOnly tt)
  = Some (Some (KVError "failed to update secret"
                  [("name", "elasticsearch"); ("namespace", "logging")]
                  conflict), 5, 6).
Proof. vm_compute. reflexivity. Qed.



Lemma CreateOrUpdate_equal_writes_nothing_witness :
  ∃ st', CreateOrUpdate clusterClient 1%positive DataEqual MutateDataOnly
           (start desiredOnly (storing (sampleSecret dataA)))
         = Some (None, st') ∧
         List.filter is_write (trace st') = [].
Proof.
  destruct (CreateOrUpdate_equal_writes_nothing clusterClient 1%positive
              DataEqual MutateDataOnly
              (start desiredOnly (storing (sampleSecret dataA)))
              (sampleSecret dataA) (sampleSecret dataA)
              (storing (sampleSecret dataA)))
    as (st' & E & _ & Hw & _); [reflexivity..|].
  exists st'. split; [exact E | exact Hw].
Defined.


Lemma mutate_changes_selected_fields_only_witness :
  ∃ h', MutateDataOnly 2%positive 1%positive twoSecrets = Some h' ∧
        h' !! 1%positive = Some (sampleSecret dataA).
Proof.
  destruct (mutate_changes_selected_fields_only twoSecrets 2%positive
              1%positive (sampleSecret dataB) (sampleSecret dataA))
    as [(h' & c' & E & _ & _ & _ & Hd & _) _]; [reflexivity..|].
  exists h'. split; [exact E | exact Hd].
Defined.

End SecretRuns.


(** * Properties of the fingerprint *)

Section FingerprintProperties.
Import Errors Client Run secret GoMap.
Local Open Scope list_scope.
Local Open Scope nat_scope.

Lemma Sum256_length (data : list byte) :
  length (SHA256.Sum256 data) = SHA256.Size.
Proof. unfold SHA256.Sum256. by rewrite !length_app. Qed.

Lemma string_of_list_byte_length (l : list byte) :
  String.length (String.string_of_list_byte l) = length l.
Proof.
  unfold String.string_of_list_byte.
  rewrite <- (length_map Ascii.ascii_of_byte l).
  induction (List.map Ascii.ascii_of_byte l) as [|a l' IH]; [done|].
  cbn. by rewrite IH.
Qed.

Lemma string_app_length (s1 s2 : string) :
  String.length (s1 +:+ s2) = String.length s1 + String.length s2.
Proof.
  induction s1 as [|a s1 IH]; [done|].
  cbn [String.length Nat.add]. rewrite <- IH. reflexivity.
Qed.

(** Inserting the entries of a list without repeated keys, first to
    last, builds the map of the list. *)
Lemma fold_insert_fmap {A B} (f : A → B) (l : list (string * A))
    (m : gmap string B) :
  NoDup l.*1 →
  fold_left (λ acc kv, <[kv.1 := f kv.2]> acc) l m
  = (f <$> (list_to_map l : gmap string A)) ∪ m.
Proof.
  revert m. induction l as [|[k a] l IH]; intros m Hnd.
  - cbn. rewrite fmap_empty. by rewrite (left_id_L ∅ (∪)).
  - rewrite fmap_cons in Hnd. apply NoDup_cons in Hnd as [Hk Hnd].
    cbn [fold_left fst snd] in *.
    rewrite IH by done. cbn [list_to_map foldr uncurry fst snd].
    rewrite fmap_insert.
    assert (Hnone : (f <$> (list_to_map l : gmap string A)) !! k = None).
    { rewrite lookup_fmap. by rewrite (not_elem_of_list_to_map_1 l k). }
    apply map_eq. intros i.
    rewrite !lookup_union. destruct (decide (k = i)) as [->|Hne].
    + rewrite !lookup_insert_eq, Hnone. by destruct (m !! i).
    + by rewrite !lookup_insert_ne.
Qed.

(** The first loop builds the map of digests whatever order it runs
    in. *)
Lemma hashEach_fmap (o : Order) (data : gmap string (list byte)) :
  valid o → hashEach o data = SHA256.Sum256 <$> data.
Proof.
  intros Ho. unfold hashEach.
  assert (Hnd : NoDup (visit o _ data).*1).
  { rewrite (Ho _ data). apply NoDup_fst_map_to_list. }
  rewrite (fold_insert_fmap SHA256.Sum256 _ ∅ Hnd).
  rewrite (right_id_L ∅ (∪)). f_equal.
  rewrite (list_to_map_proper _ (map_to_list data)); [|done|apply Ho].
  apply list_to_map_to_list.
Qed.

Lemma fold_append_keys {V} (l : list (string * V)) (acc : list string) :
  fold_left (λ keys kv, keys ++ [kv.1]) l acc = acc ++ l.*1.
Proof.
  revert acc. induction l as [|kv l IH]; intros acc; cbn.
  - by rewrite app_nil_r.
  - rewrite IH. by rewrite <- app_assoc.
Qed.

(** The second loop collects every key once, in the order it runs in. *)
Lemma collectKeys_perm (o : Order) (m : gmap string (list byte)) :
  valid o → collectKeys o m ≡ₚ (map_to_list m).*1.
Proof.
  intros Ho. unfold collectKeys. rewrite fold_append_keys. cbn.
  by rewrite (Ho _ m).
Qed.

(** Sorting forgets the order the keys came in. *)
Lemma sortStrings_perm (l1 l2 : list string) :
  l1 ≡ₚ l2 → sortStrings l1 = sortStrings l2.
Proof.
  intros Hp. unfold sortStrings.
  apply (Sorted_unique String.le); try apply Sorted_merge_sort; try apply _.
  by rewrite !merge_sort_Permutation.
Qed.

Lemma dataSHA256_any_order (o1 o2 o1' o2' : Order)
    (data : gmap string (list byte)) :
  valid o1 → valid o2 → valid o1' → valid o2' →
  dataSHA256 o1 o2 data = dataSHA256 o1' o2' data.
Proof.
  intros H1 H2 H1' H2'. unfold dataSHA256.
  rewrite !hashEach_fmap by done. f_equal.
  apply sortStrings_perm. by rewrite !collectKeys_perm.
Qed.

Lemma appendDigests_length (dataHashes : gmap string (list byte)) keys hash :
  (∀ k d, dataHashes !! k = Some d → length d = SHA256.Size) →
  String.length (appendDigests dataHashes keys hash)
  = String.length hash + SHA256.Size * length keys.
Proof.
  intros Hd. unfold appendDigests. revert hash.
  induction keys as [|k keys IH]; intros hash; cbn [fold_left length].
  - lia.
  - rewrite IH, string_app_length, string_of_list_byte_length.
    assert (length (digestAt dataHashes k) = SHA256.Size) as ->.
    { unfold digestAt. destruct (dataHashes !! k) as [d|] eqn:E; cbn.
      - by apply (Hd k).
      - done. }
    lia.
Qed.

(** The fingerprint of a data map holds one digest per key. *)
Lemma dataSHA256_length (o1 o2 : Order) (data : gmap string (list byte)) :
  valid o1 → valid o2 →
  String.length (dataSHA256 o1 o2 data) = SHA256.Size * size data.
Proof.
  intros H1 H2. unfold dataSHA256. rewrite appendDigests_length.
  - cbn [String.length]. f_equal. unfold sortStrings.
    rewrite merge_sort_Permutation, collectKeys_perm by done.
    rewrite length_fmap, hashEach_fmap by done.
    by rewrite length_map_to_list, map_size_fmap.
  - intros k d. rewrite hashEach_fmap by done. rewrite lookup_fmap.
    destruct (data !! k); intros [= <-]. apply Sum256_length.
Qed.

Lemma valid_listed : valid listed.
Proof. by intros V m. Qed.

Lemma valid_reversed : valid reversed.
Proof. intros V m. cbn. apply reverse_Permutation. Qed.

(** [GetDataSHA256] makes one get and returns the fingerprint of the data
    read, or the empty string when the get fails. *)
Lemma GetDataSHA256_run {W} (o1 o2 : Order) (c : Client W) key
    (st : State W) :
  ∃ st', GetDataSHA256 o1 o2 c key st =
           Some (match (clientGet c key (world st)).1 with
                 | inl s => dataSHA256 o1 o2 (Data s)
                 | inr _ => ""
                 end, st') ∧
         trace st' = trace st ++ [EvGet key (clientGet c key (world st)).1] ∧
         world st' = (clientGet c key (world st)).2.
Proof.
  set (fresh0 := newSecret (key_Name key) (key_Namespace key) ∅).
  destruct (alloc_run st fresh0) as (p & Ea & Hfresh).
  unfold GetDataSHA256, Get, New. run_bind. fold fresh0. rewrite Ea.
  cbv beta iota.
  rewrite callGet_run by (cbn; rewrite lookup_insert_eq; eauto).
  cbn [heap world trace].
  destruct (clientGet c key (world st)) as [[s|e] w]; cbn [fst snd].
  - cbv beta iota.
    rewrite (load_run _ p s) by (cbn; by rewrite lookup_insert_eq).
    eexists. split; [reflexivity|]. done.
  - cbv beta iota.
    rewrite (load_run _ p fresh0) by (cbn; by rewrite lookup_insert_eq).
    eexists. split; [reflexivity|]. done.
Qed.

(** C8: two reads that return secrets holding the same keys with the same
    values give the same fingerprint, whichever order each of the loops
    over the maps runs in: the fingerprint is the digests of the values
    appended in ascending order of their keys. *)
Theorem GetDataSHA256_order_independent {W1 W2}
    (c1 : Client W1) (c2 : Client W2) key1 key2
    (st1 : State W1) (st2 : State W2) s1 s2 w1 w2 (o1 o2 o1' o2' : Order) :
  valid o1 → valid o2 → valid o1' → valid o2' →
  clientGet c1 key1 (world st1) = (inl s1, w1) →
  clientGet c2 key2 (world st2) = (inl s2, w2) →
  (∀ k, Data s1 !! k = Data s2 !! k) →
  ∃ hash st1' st2' keys,
    GetDataSHA256 o1 o2 c1 key1 st1 = Some (hash, st1') ∧
    GetDataSHA256 o1' o2' c2 key2 st2 = Some (hash, st2') ∧
    Sorted String.le keys ∧
    keys ≡ₚ (map_to_list (Data s1)).*1 ∧
    hash = appendDigests (SHA256.Sum256 <$> Data s1) keys "".
Proof.
  intros H1 H2 H1' H2' Hg1 Hg2 Hsame.
  assert (Data s1 = Data s2) as Hd by (by apply map_eq).
  destruct (GetDataSHA256_run o1 o2 c1 key1 st1) as (st1' & E1 & _).
  destruct (GetDataSHA256_run o1' o2' c2 key2 st2) as (st2' & E2 & _).
  rewrite Hg1 in E1. rewrite Hg2 in E2. cbn [fst] in *.
  exists (dataSHA256 o1 o2 (Data s1)), st1', st2',
         (sortStrings (collectKeys o2 (hashEach o1 (Data s1)))).
  split; [done|]. split.
  { rewrite E2, <- Hd. do 2 f_equal. by apply dataSHA256_any_order. }
  split; [apply Sorted_merge_sort; apply _|]. split.
  - unfold sortStrings.
    rewrite merge_sort_Permutation, collectKeys_perm, hashEach_fmap by done.
    rewrite map_to_list_fmap, <- list_fmap_compose.
    apply reflexive_eq, list_fmap_ext. by intros i [] _.
  - unfold dataSHA256. by rewrite hashEach_fmap.
Qed.

(** C9: [GetDataSHA256] always returns a string; it is the empty string
    exactly when the get fails or the secret read holds no data. *)
Theorem GetDataSHA256_empty_iff {W} (o1 o2 : Order) (c : Client W) key
    (st : State W) :
  valid o1 → valid o2 →
  ∃ hash st',
    GetDataSHA256 o1 o2 c key st = Some (hash, st') ∧
    (hash = "" ↔
       (∃ e, (clientGet c key (world st)).1 = inr e) ∨
       (∃ s, (clientGet c key (world st)).1 = inl s ∧ Data s = ∅)).
Proof.
  intros H1 H2.
  destruct (GetDataSHA256_run o1 o2 c key st) as (st' & E & _).
  eexists _, st'. split; [exact E|].
  destruct (clientGet c key (world st)).1 as [s|e].
  - split.
    + intros Hempty. right. exists s. split; [done|].
      apply map_size_empty_iff.
      pose proof (dataSHA256_length o1 o2 (Data s) H1 H2) as Hlen.
      rewrite Hempty in Hlen. cbn in Hlen. unfold SHA256.Size in Hlen. lia.
    + intros [[e [=]]|(s' & [= <-] & Hd)].
      apply (f_equal size) in Hd. rewrite map_size_empty in Hd.
      pose proof (dataSHA256_length o1 o2 (Data s) H1 H2) as Hlen.
      rewrite Hd in Hlen.
      by destruct (dataSHA256 o1 o2 (Data s)).
  - split; [eauto|done].
Qed.

End FingerprintProperties.

Section FingerprintRuns.
Import Errors Client Run secret GoMap Stores.
Local Open Scope list_scope.

Example fingerprint_of_two_entries :
  String.length (dataSHA256 listed reversed dataA) = 64%nat ∧
  dataSHA256 listed reversed dataA
  = String.string_of_list_byte
      (SHA256.Sum256 (bytesOf "c1") ++ SHA256.Sum256 (bytesOf "k1")).
Proof. vm_compute. split; reflexivity. Qed.

Lemma GetDataSHA256_order_independent_witness :
  ∃ hash st1' st2',
    GetDataSHA256 listed reversed clusterClient sampleKey
      (start ∅ (storing (sampleSecret dataA))) = Some (hash, st1') ∧
    GetDataSHA256 reversed listed clusterClient sampleKey
      (start ∅ (storing (sampleSecret dataA'))) = Some (hash, st2').
Proof.
  destruct (GetDataSHA256_order_independent clusterClient clusterClient
              sampleKey sampleKey
              (start ∅ (storing (sampleSecret dataA)))
              (start ∅ (storing (sampleSecret dataA')))
              (sampleSecret dataA) (sampleSecret dataA')
              (storing (sampleSecret dataA)) (storing (sampleSecret dataA'))
              listed reversed reversed listed
              valid_listed valid_reversed valid_reversed valid_listed)
    as (hash & st1' & st2' & keys & E1 & E2 & _);
    [reflexivity | reflexivity | intros k; by vm_compute |].
  exists hash, st1', st2'. split; [exact E1 | exact E2].
Defined.

Lemma GetDataSHA256_empty_iff_witness :
  ∃ hash st',
    GetDataSHA256 listed reversed clusterClient sampleKey (start ∅ ∅)
      = Some (hash, st') ∧
    (hash = "" ↔
       (∃ e, (clientGet clusterClient sampleKey
                (world (start ∅ (∅ : Cluster)))).1 = inr e) ∨
       (∃ s, (clientGet clusterClient sampleKey
                (world (start ∅ (∅ : Cluster)))).1 = inl s ∧ Data s = ∅)).
Proof.
  apply (GetDataSHA256_empty_iff listed reversed clusterClient sampleKey
           (start ∅ ∅) valid_listed valid_reversed).
Defined.

End FingerprintRuns.

(** * Further properties of the secret package and the network policy *)

Section EqualityProperties.
Import Errors Client Run secret.

Lemma set_Data_Data d (s : Secret) : Data (set_Data d s) = d.
Proof. done. Qed.

(** X17: each provided mutate function establishes the provided equality
    it is named after, and changes nothing when that equality already
    holds.  After [MutateDataOnly] the two secrets are [DataEqual]; after
    [MutateAnnotationsAndDataOnly] they are [AnnotationsAndDataEqual];
    either leaves the heap as it was when the secrets were already equal
    in that sense; and [AnnotationsAndDataEqual] is the finer equality of
    the two. *)
Theorem mutate_establishes_equal (h : Heap) (current desired : loc)
    (c d : Secret) :
  h !! current = Some c → h !! desired = Some d →
  (∃ h' c', MutateDataOnly current desired h = Some h' ∧
            h' !! current = Some c' ∧ DataEqual c' d = true ∧
            (DataEqual c d = true → h' = h)) ∧
  (∃ h' c', MutateAnnotationsAndDataOnly current desired h = Some h' ∧
            h' !! current = Some c' ∧
            AnnotationsAndDataEqual c' d = true ∧
            (AnnotationsAndDataEqual c d = true → h' = h)) ∧
  (AnnotationsAndDataEqual c d = true → DataEqual c d = true).
Proof.
  intros Hc Hd. split; [|split].
  - destruct (MutateDataOnly_run h current desired c d Hc Hd) as [-> _].
    eexists _, _. split; [reflexivity|].
    split; [apply lookup_insert_eq|]. split.
    + unfold DataEqual. by rewrite bool_decide_eq_true.
    + unfold DataEqual. rewrite bool_decide_eq_true. intros <-.
      rewrite set_Data_same. by apply insert_id.
  - destruct (MutateAnnotationsAndDataOnly_run h current desired c d Hc Hd)
      as [-> _].
    eexists _, _. split; [reflexivity|].
    split; [apply lookup_insert_eq|]. split.
    + unfold AnnotationsAndDataEqual.
      by rewrite andb_true_iff, !bool_decide_eq_true.
    + unfold AnnotationsAndDataEqual.
      rewrite andb_true_iff, !bool_decide_eq_true. intros [<- <-].
      rewrite set_Annotations_same, set_Data_same. by apply insert_id.
  - unfold AnnotationsAndDataEqual, DataEqual.
    rewrite andb_true_iff. tauto.
Qed.

End EqualityProperties.

Section GetProperties.
Import Errors Client Run secret GoMap.
Local Open Scope list_scope.
Local Open Scope nat_scope.
Context {W : Type}.
Implicit Types (st : State W) (c : Client W).

(** X18: [Get] makes one call to the store, a get of the key, and always
    returns the address of a secret it allocated itself.  When the get
    succeeds that secret is the one read and the error is nil; when it
    fails the secret is the empty one built for the key and the error is
    the store's error wrapped with the name and the namespace of the key,
    which is still recognised as "not found" when the store's error
    was.  Nothing already on the heap is touched. *)
Theorem Get_returns_its_own_secret c key st :
  ∃ p err st',
    Get c key st = Some ((p, err), st') ∧
    heap st !! p = None ∧
    (∀ q, q ≠ p → heap st' !! q = heap st !! q) ∧
    trace st' = trace st ++ [EvGet key (clientGet c key (world st)).1] ∧
    world st' = (clientGet c key (world st)).2 ∧
    match (clientGet c key (world st)).1 with
    | inl s => err = None ∧ heap st' !! p = Some s
    | inr e =>
        err = Some (KVError "failed to get secret"
                      [("name", key_Name key);
                       ("namespace", key_Namespace key)] e) ∧
        heap st' !! p
          = Some (newSecret (key_Name key) (key_Namespace key) ∅) ∧
        (∀ e', err = Some e' → IsNotFound e' = IsNotFound e)
    end.
Proof.
  set (fresh0 := newSecret (key_Name key) (key_Namespace key) ∅).
  destruct (alloc_run st fresh0) as (p & Ea & Hfresh).
  unfold Get, New. run_bind. fold fresh0. rewrite Ea. cbv beta iota.
  rewrite callGet_run by (cbn; rewrite lookup_insert_eq; eauto).
  cbn [heap world trace].
  destruct (clientGet c key (world st)) as [[s|e] w]; cbn [fst snd].
  - exists p, None. eexists. split; [reflexivity|]. cbn [heap trace world].
    split; [done|]. split.
    { intros q Hq. by rewrite !lookup_insert_ne. }
    split; [done|]. split; [done|]. split; [done|].
    by rewrite lookup_insert_eq.
  - cbv beta iota.
    rewrite (load_run _ p fresh0) by (cbn; by rewrite lookup_insert_eq).
    eexists p, _, _. split; [reflexivity|]. cbn [heap trace world].
    split; [done|]. split.
    { intros q Hq. by rewrite !lookup_insert_ne. }
    split; [done|]. split; [done|]. split; [done|].
    split; [by rewrite lookup_insert_eq|]. by intros e' [= <-].
Qed.

(** X19: the fingerprint holds 32 bytes for every key of the secret read,
    and nothing for a failed get; computing it makes one get and no
    write. *)
Theorem GetDataSHA256_has_one_digest_per_key (o1 o2 : Order) c key st :
  valid o1 → valid o2 →
  ∃ hash st',
    GetDataSHA256 o1 o2 c key st = Some (hash, st') ∧
    String.length hash
      = match (clientGet c key (world st)).1 with
        | inl s => 32 * size (Data s)
        | inr _ => 0
        end ∧
    List.filter is_write (trace st') = List.filter is_write (trace st) ∧
    length (trace st') = S (length (trace st)).
Proof.
  intros H1 H2.
  destruct (GetDataSHA256_run o1 o2 c key st) as (st' & E & Htr & _).
  eexists _, st'. split; [exact E|]. split.
  - destruct (clientGet c key (world st)).1 as [s|e]; [|done].
    by rewrite dataSHA256_length.
  - rewrite Htr, List.filter_app, length_app. cbn.
    rewrite app_nil_r. split; [done | lia].
Qed.

End GetProperties.

Section PayloadProperties.
Import Errors Client Run secret.
Local Open Scope list_scope.
Local Open Scope nat_scope.
Context {W : Type}.
Implicit Types (st : State W) (c : Client W).

Lemma MutateDataOnly_mutates_as : mutates_as MutateDataOnly withDataOf.
Proof.
  intros current desired h c d Hc Hd _.
  by destruct (MutateDataOnly_run h current desired c d Hc Hd) as [-> _].
Qed.

Lemma MutateAnnotationsAndDataOnly_mutates_as :
  mutates_as MutateAnnotationsAndDataOnly withAnnotationsAndDataOf.
Proof.
  intros current desired h c d Hc Hd _.
  by destruct (MutateAnnotationsAndDataOnly_run h current desired c d Hc Hd)
    as [-> _].
Qed.

(** One run of the closure when the mutate function acts through [f]. *)
Lemma updateAttempt_exact c key current s mutate f st desired :
  mutates_as mutate f → current ≠ s →
  is_Some (heap st !! current) → heap st !! s = Some desired →
  ∃ (a : Attempt) st',
    updateAttempt c key current s mutate st
      = Some (attemptResult desired a, st') ∧
    trace st' = trace st ++ attemptCalls key f desired a ∧
    is_Some (heap st' !! current) ∧ heap st' !! s = Some desired.
Proof.
  intros Hf Hne Hcur Hs.
  unfold updateAttempt. run_bind. rewrite callGet_run by done.
  destruct (clientGet c key (world st)) as [[cur|e] w]; cbn [fst snd].
  - cbv beta iota. unfold onHeap at 1. cbn [heap world trace].
    rewrite (Hf current s _ cur desired);
      [| by rewrite lookup_insert_eq | by rewrite lookup_insert_ne | done].
    cbv beta iota.
    rewrite (callUpdate_run _ _ _ (f cur desired))
      by (cbn; by rewrite lookup_insert_eq).
    cbn [heap world trace].
    set (res := (clientUpdate c (ObjSecret (f cur desired)) w).1).
    set (st' := mkState _ _ _).
    exists (inl cur, res), st'.
    split; [by destruct res|]. subst st'. cbn [heap trace].
    split; [by rewrite <- app_assoc|].
    split; [rewrite lookup_insert_eq; eauto|].
    by rewrite !lookup_insert_ne.
  - cbv beta iota. rewrite (load_run _ s desired) by done.
    exists (inr e, None). eexists (mkState _ _ _).
    split; [reflexivity|]. cbn [heap trace]. done.
Qed.

(** The retry loop, run for [n] steps, when the mutate function acts
    through [f]. *)
Lemma backoffLoop_exact c key current s mutate f desired n :
  mutates_as mutate f → current ≠ s →
  ∀ st lastErr,
    is_Some (heap st !! current) → heap st !! s = Some desired →
    ∃ res st' (attempts : list Attempt),
      backoffLoop n IsConflict (updateAttempt c key current s mutate)
                  lastErr st = Some (res, st') ∧
      trace st' = trace st ++ concat (attemptCalls key f desired <$> attempts) ∧
      length attempts ≤ n ∧ (0 < n → 0 < length attempts) ∧
      onErrorResult res
        = default lastErr (attemptResult desired <$> last attempts) ∧
      is_Some (heap st' !! current) ∧ heap st' !! s = Some desired.
Proof.
  intros Hf Hne. induction n as [|n IH]; intros st lastErr Hcur Hs.
  - exists (ErrWaitTimeout, lastErr), st, [].
    split; [done|]. cbn. rewrite app_nil_r. repeat split; try done; lia.
  - destruct (updateAttempt_exact c key current s mutate f st desired
                Hf Hne Hcur Hs) as (a & st1 & Erun & Htr & Hcur1 & Hs1).
    cbn [backoffLoop]. run_bind. rewrite Erun. cbv beta iota.
    destruct (attemptResult desired a) as [e|] eqn:Er.
    + destruct (IsConflict e) eqn:Ec.
      * destruct (IH st1 (Some e) Hcur1 Hs1)
          as (res & st' & rest & Eloop & Htr' & Hlen & Hpos & Hres
              & Hcur' & Hs').
        exists res, st', (a :: rest).
        split; [done|]. cbn [fmap list_fmap concat length].
        split; [by rewrite Htr', Htr, <- app_assoc|].
        split; [lia|]. split; [lia|]. split; [|done].
        rewrite Hres. destruct rest as [|a' rest]; [cbn; by rewrite Er|].
        rewrite last_cons_cons.
        destruct (last (a' :: rest)) eqn:El; [done|].
        by apply last_None in El.
      * exists (WaitFailed e, lastErr), st1, [a].
        split; [done|]. cbn. rewrite app_nil_r, Er.
        repeat split; try done; lia.
    + exists (WaitDone, lastErr), st1, [a].
      split; [done|]. cbn. rewrite app_nil_r, Er.
      repeat split; try done; lia.
Qed.

(** X20: every update [CreateOrUpdate] sends is the secret its closure
    has just read, changed by the mutate function and by nothing else.
    When the mutate function acts through [f] and the first get returns
    a secret that is not equal to the desired one, the calls that follow
    are those of one to five runs of the closure, each a get alone (when
    it failed) or a get and the update of [f] applied to the secret that
    get returned; the error returned is that of the last run; and the
    desired secret is left as it was. *)
Theorem CreateOrUpdate_sends_what_it_just_read
    c s equal mutate f st desired cur w' :
  mutates_as mutate f →
  heap st !! s = Some desired →
  clientGet c (mkObjectKey (Name desired) (Namespace desired)) (world st)
    = (inl cur, w') →
  equal cur desired = false →
  let key := mkObjectKey (Name desired) (Namespace desired) in
  ∃ r st' (attempts : list Attempt) (final : Attempt),
    CreateOrUpdate c s equal mutate st = Some (r, st') ∧
    trace st' = trace st ++ EvGet key (inl cur)
                  :: concat (attemptCalls key f desired <$> attempts) ∧
    0 < length attempts ≤ 5 ∧
    last attempts = Some final ∧
    r = Wrap (attemptResult desired final) "failed to update secret"
             (keysAndValues desired) ∧
    heap st' !! s = Some desired.
Proof.
  intros Hf Hs Hget Hneq key.
  destruct (CreateOrUpdate_start c s equal mutate st desired Hs)
    as (current & Hfresh & Hne & ->).
  fold key. fold key in Hget. rewrite Hget. cbn [fst snd].
  rewrite Hneq. cbn [negb]. cbv zeta.
  set (st1 := mkState _ _ _).
  assert (Hcur1 : is_Some (heap st1 !! current)).
  { subst st1. cbn. rewrite lookup_insert_eq. eauto. }
  assert (Hs1 : heap st1 !! s = Some desired).
  { subst st1. cbn. by rewrite !lookup_insert_ne. }
  destruct (backoffLoop_exact c key current s mutate f desired 5 Hf Hne
              st1 None Hcur1 Hs1)
    as (res & st' & attempts & Eloop & Htr & Hlen & Hpos & Hres & _ & Hs').
  assert (Hpos' : 0 < length attempts) by (apply Hpos; lia).
  destruct (last attempts) as [final|] eqn:El.
  2: { destruct attempts; [cbn in Hpos'; lia|].
       by rewrite last_cons in El; destruct (last attempts). }
  cbn in Hres.
  assert (Erun : RetryOnConflict DefaultRetry
                   (updateAttempt c key current s mutate) st1
                 = Some (attemptResult desired final, st')).
  { unfold RetryOnConflict, OnError. run_bind. cbn [Steps DefaultRetry].
    rewrite Eloop. cbv beta iota. rewrite <- Hres.
    destruct res as [[| |] ?]; reflexivity. }
  run_bind. rewrite Erun. cbv beta iota.
  exists (Wrap (attemptResult desired final) "failed to update secret"
            (keysAndValues desired)), st', attempts, final.
  split.
  { destruct (attemptResult desired final); [|done].
    by rewrite (load_run _ s desired). }
  split. { rewrite Htr. subst st1. cbn [trace]. by rewrite <- app_assoc. }
  split; [lia|]. done.
Qed.





End PayloadProperties.

Section Convergence.
Import Errors Client Run secret Stores.
Local Open Scope list_scope.
Local Open Scope nat_scope.

Implicit Types (st : State Cluster).




End Convergence.

Section PolicyProperties.
Import Errors Client Run elasticsearch Stores.
Local Open Scope list_scope.

Implicit Types (st : State Policies).

Lemma EnforceNetworkPolicy_run {W} namespace (c : Client W) ownerRef
    (st : State W) :
  let policy := mkNetworkPolicy "restricted-es-policy" namespace ownerRef
                  RestrictedToOperatorAndCluster in
  let res := clientCreate c (ObjNetworkPolicy policy) (world st) in
  EnforceNetworkPolicy namespace c ownerRef st =
    Some (match res.1 with
          | None => None
          | Some e =>
              if IsAlreadyExists (Root e) then None
              else Some (KVError "failed to create network policy" [] e)
          end,
          mkState (heap st) res.2
                  (trace st ++ [EvCreate (ObjNetworkPolicy policy) res.1])).
Proof.
  cbv zeta. unfold EnforceNetworkPolicy, callCreatePolicy, record. run_bind.
  cbn [np_Name np_Namespace np_Spec newNetworkPolicy].
  destruct (clientCreate c _ (world st)) as [[e|] w]; cbn [fst snd];
    [|done].
  by destruct (IsAlreadyExists (Root e)).
Qed.

Lemma RelaxNetworkPolicy_run {W} namespace (c : Client W) (st : State W) :
  let policy := newNetworkPolicy namespace in
  let res := clientDelete c (ObjNetworkPolicy policy) (world st) in
  RelaxNetworkPolicy namespace c st =
    Some (match res.1 with
          | None => None
          | Some e =>
              if IsNotFound (Root e) then None
              else Some (KVError "failed to delete network policy" [] e)
          end,
          mkState (heap st) res.2
                  (trace st ++ [EvDelete (ObjNetworkPolicy policy) res.1])).
Proof.
  cbv zeta. unfold RelaxNetworkPolicy, callDeletePolicy, record. run_bind.
  destruct (clientDelete c _ (world st)) as [[e|] w]; cbn [fst snd];
    [|done].
  by destruct (IsNotFound (Root e)).
Qed.

Lemma policyClient_create (w : Policies) p :
  clientCreate policyClient (ObjNetworkPolicy p) w
  = match w !! policyKey p with
    | Some _ => (Some alreadyExists, w)
    | None => (None, <[policyKey p := p]> w)
    end.
Proof. done. Qed.

Lemma policyClient_delete (w : Policies) p :
  clientDelete policyClient (ObjNetworkPolicy p) w
  = match w !! policyKey p with
    | Some _ => (None, delete (policyKey p) w)
    | None => (Some notFound, w)
    end.
Proof. done. Qed.

(** X23: enforcing the network policy on a store of policies never
    fails and never overwrites.  After [EnforceNetworkPolicy] the store
    holds a policy named "restricted-es-policy" in the namespace: the one
    it held before if there was one, owner references included, or else
    the new policy with the given owner references; nothing else in the
    store changes, and enforcing again changes nothing at all. *)
Theorem EnforceNetworkPolicy_creates_once namespace ownerRef ownerRef' st :
  let key := mkObjectKey "restricted-es-policy" namespace in
  ∃ st1 st2,
    EnforceNetworkPolicy namespace policyClient ownerRef st
      = Some (None, st1) ∧
    world st1 !! key
      = Some (default (mkNetworkPolicy "restricted-es-policy" namespace
                         ownerRef RestrictedToOperatorAndCluster)
                      (world st !! key)) ∧
    (∀ k, k ≠ key → world st1 !! k = world st !! k) ∧
    EnforceNetworkPolicy namespace policyClient ownerRef' st1
      = Some (None, st2) ∧
    world st2 = world st1.
Proof.
  intros key.
  assert (Hrun : ∀ refs (st0 : State Policies) held,
            world st0 !! key = Some held →
            ∃ st', EnforceNetworkPolicy namespace policyClient refs st0
                     = Some (None, st') ∧ world st' = world st0).
  { intros refs st0 held Hw. rewrite EnforceNetworkPolicy_run. cbv zeta.
    rewrite policyClient_create.
    change (policyKey _) with key. rewrite Hw. cbn [fst snd].
    eexists. split; [reflexivity|]. done. }
  destruct (world st !! key) as [held|] eqn:Hw; cbn [default].
  - destruct (Hrun ownerRef st held Hw) as (st1 & E1 & Ew1).
    destruct (Hrun ownerRef' st1 held) as (st2 & E2 & Ew2);
      [by rewrite Ew1|].
    exists st1, st2. split; [done|]. split; [by rewrite Ew1|].
    split; [intros k _; by rewrite Ew1|]. done.
  - rewrite EnforceNetworkPolicy_run. cbv zeta.
    rewrite policyClient_create.
    change (policyKey _) with key. rewrite Hw. cbn [fst snd].
    set (st1 := mkState _ _ _).
    destruct (Hrun ownerRef' st1
                (mkNetworkPolicy "restricted-es-policy" namespace ownerRef
                   RestrictedToOperatorAndCluster)) as (st2 & E2 & Ew2).
    { subst st1. cbn [world]. apply lookup_insert_eq. }
    exists st1, st2. split; [done|].
    split; [subst st1; cbn [world]; apply lookup_insert_eq|].
    split; [|done].
    intros k Hk. subst st1. cbn [world]. by apply lookup_insert_ne.
Qed.

(** X24: relaxing undoes enforcing.  [RelaxNetworkPolicy] on a store of
    policies never fails and leaves no policy named
    "restricted-es-policy" in the namespace, whether one was held or
    not; and on a store that held none, enforcing and then relaxing
    gives back the store as it was. *)
Theorem RelaxNetworkPolicy_undoes_enforce namespace ownerRef st :
  let key := mkObjectKey "restricted-es-policy" namespace in
  (∃ st1, RelaxNetworkPolicy namespace policyClient st = Some (None, st1) ∧
          world st1 = delete key (world st)) ∧
  (world st !! key = None →
   ∃ st1 st2,
     EnforceNetworkPolicy namespace policyClient ownerRef st
       = Some (None, st1) ∧
     RelaxNetworkPolicy namespace policyClient st1 = Some (None, st2) ∧
     world st2 = world st).
Proof.
  intros key.
  assert (Hrelax : ∀ st0 : State Policies,
            ∃ st', RelaxNetworkPolicy namespace policyClient st0
                     = Some (None, st') ∧
                   world st' = delete key (world st0)).
  { intros st0. rewrite RelaxNetworkPolicy_run. cbv zeta.
    rewrite policyClient_delete.
    change (policyKey _) with key.
    destruct (world st0 !! key) as [held|] eqn:Hw; cbn [fst snd].
    - eexists. split; [reflexivity|]. done.
    - eexists. split; [reflexivity|]. cbn [world]. symmetry.
      by apply delete_id. }
  split; [apply Hrelax|].
  intros Hw. rewrite EnforceNetworkPolicy_run. cbv zeta.
  rewrite policyClient_create.
  change (policyKey _) with key. rewrite Hw. cbn [fst snd].
  set (st1 := mkState _ _ _).
  destruct (Hrelax st1) as (st2 & E2 & Ew2).
  exists st1, st2. split; [done|]. split; [done|].
  rewrite Ew2. subst st1. cbn [world].
  etrans; [apply delete_insert_eq | by apply delete_id].
Qed.

End PolicyProperties.

Section RenamingProperties.
Import Errors Client Run secret GoMap.
Local Open Scope list_scope.

Lemma kmap_keys {V} (rename : string → string) `{!Inj (=) (=) rename}
    (m : gmap string V) :
  (map_to_list (kmap rename m : gmap string V)).*1
  ≡ₚ rename <$> (map_to_list m).*1.
Proof.
  unfold kmap. rewrite map_to_list_to_map.
  - rewrite <- !list_fmap_compose. apply reflexive_eq, list_fmap_ext.
    by intros i [] _.
  - rewrite <- list_fmap_compose.
    rewrite (list_fmap_ext _ (rename ∘ fst) (map_to_list m))
      by (by intros i [] _).
    rewrite list_fmap_compose. apply NoDup_fmap_2; [done|].
    apply NoDup_fst_map_to_list.
Qed.

(** Sorting commutes with a renaming that keeps the order. *)
Lemma sortStrings_fmap (rename : string → string) (keys : list string) :
  (∀ k k', String.le k k' → String.le (rename k) (rename k')) →
  sortStrings (rename <$> keys) = rename <$> sortStrings keys.
Proof.
  intros Hmono. unfold sortStrings.
  apply (Sorted_unique String.le); try apply _.
  - apply Sorted_merge_sort; apply _.
  - apply (Sorted_fmap _ _ _ _ Hmono), Sorted_merge_sort; apply _.
  - by rewrite !merge_sort_Permutation.
Qed.

Lemma appendDigests_kmap (rename : string → string)
    `{!Inj (=) (=) rename} (dataHashes : gmap string (list byte)) keys hash :
  appendDigests (kmap rename dataHashes) (rename <$> keys) hash
  = appendDigests dataHashes keys hash.
Proof.
  unfold appendDigests. revert hash.
  induction keys as [|k keys IH]; intros hash; [done|].
  cbn [fmap list_fmap fold_left]. rewrite <- IH.
  unfold digestAt at 2 4. by rewrite lookup_kmap.
Qed.

Lemma dataSHA256_kmap (o1 o2 o1' o2' : Order) (rename : string → string)
    `{!Inj (=) (=) rename} (data : gmap string (list byte)) :
  valid o1 → valid o2 → valid o1' → valid o2' →
  (∀ k k', String.le k k' → String.le (rename k) (rename k')) →
  dataSHA256 o1' o2' (kmap rename data) = dataSHA256 o1 o2 data.
Proof.
  intros H1 H2 H1' H2' Hmono. unfold dataSHA256.
  rewrite !hashEach_fmap by done.
  rewrite <- (kmap_fmap (M2 := gmap string) rename SHA256.Sum256 data).
  set (dataHashes := SHA256.Sum256 <$> data).
  rewrite (sortStrings_perm (collectKeys o2' (kmap rename dataHashes))
             (rename <$> collectKeys o2 dataHashes)).
  - rewrite sortStrings_fmap by done. by apply appendDigests_kmap.
  - rewrite !collectKeys_perm by done. by apply kmap_keys.
Qed.

(** X25: the fingerprint is made of the values alone; the names of the
    keys only decide the order in which the digests are appended.  Two
    secrets give the same fingerprint when the data of the second is the
    data of the first under other key names, as long as the renaming
    keeps distinct names distinct and keeps their order. *)
Theorem GetDataSHA256_does_not_hash_key_names {W1 W2}
    (c1 : Client W1) (c2 : Client W2) key1 key2
    (st1 : State W1) (st2 : State W2) s1 s2 w1 w2
    (o1 o2 o1' o2' : Order) (rename : string → string) :
  valid o1 → valid o2 → valid o1' → valid o2' →
  Inj (=) (=) rename →
  (∀ k k', String.le k k' → String.le (rename k) (rename k')) →
  clientGet c1 key1 (world st1) = (inl s1, w1) →
  clientGet c2 key2 (world st2) = (inl s2, w2) →
  Data s2 = kmap rename (Data s1) →
  ∃ hash st1' st2',
    GetDataSHA256 o1 o2 c1 key1 st1 = Some (hash, st1') ∧
    GetDataSHA256 o1' o2' c2 key2 st2 = Some (hash, st2').
Proof.
  intros H1 H2 H1' H2' Hinj Hmono Hg1 Hg2 Hd.
  destruct (GetDataSHA256_run o1 o2 c1 key1 st1) as (st1' & E1 & _).
  destruct (GetDataSHA256_run o1' o2' c2 key2 st2) as (st2' & E2 & _).
  rewrite Hg1 in E1. rewrite Hg2 in E2. cbn [fst] in *.
  exists (dataSHA256 o1 o2 (Data s1)), st1', st2'.
  split; [done|]. rewrite E2, Hd. do 2 f_equal.
  by apply dataSHA256_kmap.
Qed.

End RenamingProperties.

Section SecretMoreRuns.
Import Errors Client Run secret GoMap Stores.
Local Open Scope list_scope.

(** A renaming that keeps names distinct and in order: a common
    prefix. *)
Lemma prefix_keeps_order (k k' : string) :
  String.le k k' → String.le ("tls-" +:+ k) ("tls-" +:+ k').
Proof. unfold String.le, String.leb. cbn. done. Qed.

Lemma mutate_establishes_equal_witness :
  ∃ h' c', MutateDataOnly 2%positive 1%positive twoSecrets = Some h' ∧
           h' !! 2%positive = Some c' ∧
           DataEqual c' (sampleSecret dataA) = true.
Proof.
  destruct (mutate_establishes_equal twoSecrets 2%positive 1%positive
              (sampleSecret dataB) (sampleSecret dataA))
    as [(h' & c' & E & Hc & Heq & _) _]; [reflexivity..|].
  exists h', c'. split; [exact E|]. split; [exact Hc | exact Heq].
Defined.

Lemma GetDataSHA256_has_one_digest_per_key_witness :
  ∃ hash st',
    GetDataSHA256 listed reversed clusterClient sampleKey
      (start ∅ (storing (sampleSecret dataA))) = Some (hash, st') ∧
    String.length hash = 64%nat.
Proof.
  destruct (GetDataSHA256_has_one_digest_per_key listed reversed
              clusterClient sampleKey
              (start ∅ (storing (sampleSecret dataA)))
              valid_listed valid_reversed)
    as (hash & st' & E & Hlen & _).
  exists hash, st'. split; [exact E | exact Hlen].
Defined.

Lemma GetDataSHA256_does_not_hash_key_names_witness :
  ∃ hash st1' st2',
    GetDataSHA256 listed reversed clusterClient sampleKey
      (start ∅ (storing (sampleSecret dataA))) = Some (hash, st1') ∧
    GetDataSHA256 reversed listed clusterClient sampleKey
      (start ∅ (storing (sampleSecret (kmap (String.append "tls-") dataA))))
      = Some (hash, st2').
Proof.
  apply (GetDataSHA256_does_not_hash_key_names clusterClient clusterClient
           sampleKey sampleKey
           (start ∅ (storing (sampleSecret dataA)))
           (start ∅ (storing (sampleSecret
                                (kmap (String.append "tls-") dataA))))
           (sampleSecret dataA)
           (sampleSecret (kmap (String.append "tls-") dataA))
           (storing (sampleSecret dataA))
           (storing (sampleSecret (kmap (String.append "tls-") dataA)))
           listed reversed reversed listed (String.append "tls-")
           valid_listed valid_reversed valid_reversed valid_listed
           (String.app_inj "tls-") prefix_keeps_order);
    reflexivity.
Defined.

Lemma CreateOrUpdate_sends_what_it_just_read_witness :
  ∃ r st' (attempts : list Attempt),
    CreateOrUpdate (fixedClient (Some (sampleSecret dataB)) (Some conflict))
      1%positive DataEqual MutateDataOnly (start desiredOnly tt)
    = Some (r, st') ∧
    trace st' = EvGet sampleKey (inl (sampleSecret dataB))
                  :: concat (attemptCalls sampleKey withDataOf
                               (sampleSecret dataA) <$> attempts).
Proof.
  destruct (CreateOrUpdate_sends_what_it_just_read
              (fixedClient (Some (sampleSecret dataB)) (Some conflict))
              1%positive DataEqual MutateDataOnly withDataOf
              (start desiredOnly tt)
              (sampleSecret dataA) (sampleSecret dataB) tt
              MutateDataOnly_mutates_as)
    as (r & st' & attempts & final & E & Htr & _); [reflexivity..|].
  exists r, st', attempts. split; [exact E | exact Htr].
Defined.



End SecretMoreRuns.

Section MoreRuns.
Import Resource Resolver Errors Client Run elasticsearch Stores.
Local Open Scope list_scope.

Lemma containers_differ_only_in_defaults_witness :
  newESResourceRequirements (bytes 268435456) (cores 1) (bytes 67108864)
    (bytes 4294967296) (cores 1) (bytes 1073741824)
    (memoryAndCpu 1073741824 2) noRequirements
  = newESProxyResourceRequirements (bytes 268435456) (cores 1)
      (bytes 67108864) (bytes 4294967296) (cores 1) (bytes 1073741824)
      (memoryAndCpu 1073741824 2) noRequirements.
Proof.
  apply (proj2 (containers_differ_only_in_defaults (bytes 268435456)
                  (cores 1) (bytes 67108864) (bytes 4294967296) (cores 1)
                  (bytes 1073741824) (memoryAndCpu 1073741824 2)
                  noRequirements)); reflexivity.
Defined.

Lemma RelaxNetworkPolicy_undoes_enforce_witness :
  ∃ st1 st2,
    EnforceNetworkPolicy "logging" policyClient [sampleOwner] (start ∅ ∅)
      = Some (None, st1) ∧
    RelaxNetworkPolicy "logging" policyClient st1 = Some (None, st2) ∧
    world st2 = ∅.
Proof.
  apply (proj2 (RelaxNetworkPolicy_undoes_enforce "logging" [sampleOwner]
                  (start ∅ ∅))).
  reflexivity.
Defined.

End MoreRuns.

Section PolicyRuleProperties.
Import Errors Client Run api Meta elasticsearch.
Local Open Scope list_scope.

Lemma selects_single (k v : string) (labels : gmap string string) :
  selects (mkLabelSelector {[ k := v ]} []) labels
  = bool_decide (labels !! k = Some v).
Proof.
  unfold selects. cbn [MatchLabels MatchExpressions forallb].
  rewrite andb_true_r. apply bool_decide_ext.
  rewrite map_Forall_singleton. done.
Qed.

Lemma selects_everything (labels : gmap string string) :
  selects (mkLabelSelector ∅ []) labels = true.
Proof.
  unfold selects. cbn [MatchLabels MatchExpressions forallb].
  rewrite andb_true_r. apply bool_decide_eq_true_2, map_Forall_empty.
Qed.

(** X26: the network policy and the pod labels fit together.  The policy
    built for a namespace selects every pod labelled by [newLabels],
    whatever its cluster, node and roles.  Traffic it lets in is TCP to
    port 9200 or 9300 and nothing else; on port 9200 it lets in the pods
    labelled by [newLabels] in its own namespace and the pods labelled
    name=elasticsearch-operator in any namespace; on port 9300 it lets in
    exactly the pods of its own namespace labelled
    component=elasticsearch, so not an operator pod that lacks that
    label. *)
Theorem network_policy_fits_pod_labels
    namespace clusterName nodeName roleMap :
  let rules := rulesOf (np_Spec (newNetworkPolicy namespace)) in
  let pod := newLabels clusterName nodeName roleMap in
  selects (PodSelector rules) pod = true ∧
  (∀ sameNamespace namespaceLabels podLabels protocol number,
     admits rules sameNamespace namespaceLabels podLabels protocol number
       = true →
     protocol = ProtocolTCP ∧ (number = 9200 ∨ number = 9300)%Z) ∧
  (∀ namespaceLabels,
     admits rules true namespaceLabels pod ProtocolTCP 9200 = true ∧
     admits rules true namespaceLabels pod ProtocolTCP 9300 = true) ∧
  (∀ sameNamespace namespaceLabels podLabels,
     podLabels !! "name" = Some "elasticsearch-operator" →
     admits rules sameNamespace namespaceLabels podLabels ProtocolTCP 9200
       = true) ∧
  (∀ sameNamespace namespaceLabels podLabels,
     admits rules sameNamespace namespaceLabels podLabels ProtocolTCP 9300
       = true ↔
     sameNamespace = true ∧
     podLabels !! "component" = Some "elasticsearch").
Proof.
  cbv zeta.
  destruct (newLabels_lookup clusterName nodeName roleMap)
    as (_ & _ & _ & _ & Lc & _). cbv zeta in Lc.
  cbn [np_Spec newNetworkPolicy rulesOf PodSelector].
  split; [|split; [|split; [|split]]].
  - rewrite selects_single. by apply bool_decide_eq_true_2.
  - intros sameNamespace namespaceLabels podLabels protocol number.
    unfold admits, ruleAdmits, portAdmits.
    cbn [Ingress rule_From rule_Ports existsb port_Protocol port_Port default
         from_option id].
    rewrite !orb_false_r, !orb_true_iff, !andb_true_iff.
    intros [(_ & Hp & Hn)|[(_ & Hp & Hn)|(_ & Hp & Hn)]];
      (destruct protocol; try discriminate Hp);
      apply bool_decide_eq_true in Hn; subst number; split; auto.
  - intros namespaceLabels.
    unfold admits, ruleAdmits, portAdmits, peerAdmits.
    cbn [Ingress rule_From rule_Ports existsb port_Protocol port_Port default
         from_option id peer_PodSelector peer_NamespaceSelector].
    rewrite !selects_single, !selects_everything.
    rewrite (bool_decide_eq_true_2 _ Lc). cbn.
    by rewrite !orb_true_r.
  - intros sameNamespace namespaceLabels podLabels Hname.
    unfold admits, ruleAdmits, portAdmits, peerAdmits.
    cbn [Ingress rule_From rule_Ports existsb port_Protocol port_Port default
         from_option id peer_PodSelector peer_NamespaceSelector].
    rewrite !selects_single, !selects_everything.
    by rewrite (bool_decide_eq_true_2 _ Hname).
  - intros sameNamespace namespaceLabels podLabels.
    unfold admits, ruleAdmits, portAdmits, peerAdmits.
    cbn [Ingress rule_From rule_Ports existsb port_Protocol port_Port default
         from_option id peer_PodSelector peer_NamespaceSelector].
    rewrite !selects_single, !selects_everything.
    change (bool_decide (9200 = 9300)%Z) with false.
    change (bool_decide (9300 = 9300)%Z) with true.
    rewrite !andb_false_r, !orb_false_r, !andb_true_r. cbn [orb].
    by rewrite andb_true_iff, bool_decide_eq_true.
Qed.

End PolicyRuleProperties.

